(** * VivoPaint: the mask-painting and compositing pipeline of [script.js]

    A shallow embedding of [src/script.js].  The script is a set of event
    handlers over one global [state] object, three canvases (image, mask,
    result) and a few DOM nodes.  Here the globals become one record
    [World] that every handler takes and returns; the canvas 2D API the
    script calls is modelled next to it, following the HTML Standard
    (bitmaps as RGBA bytes, paths as lists of subpaths, the two
    compositing operators the script selects).  The cursor overlay is
    not part of [World]: the listeners that only style it
    ([updateCursorPos] and the two on [mouseenter] and [mouseleave] of
    the wrapper, [updateCursorSize]) write nothing the other handlers
    read and are no events of the model, so that what is proved of the
    page is proved of the fields [Page] has.  The helper
    [dataURItoBlob], which nothing calls, is modelled on its own. *)

From stdpp Require Import list strings numbers.
From Stdlib Require Import ZArith Lia.
From Stdlib Require Import PrimFloat SpecFloat FloatOps.
From Stdlib Require Uint63.

Local Open Scope Z_scope.

(** ** JavaScript numbers

    Every JS number is a double.  The integers the script handles (image
    and canvas dimensions, the brush size) are kept as [Z]; a number that
    comes out of a division is kept as the double it is. *)

Inductive number :=
  | Int (z : Z)
  | Dbl (f : float).

Definition of_Z (z : Z) : float :=
  if 0 <=? z then PrimFloat.of_uint63 (Uint63.of_Z z)
  else PrimFloat.opp (PrimFloat.of_uint63 (Uint63.of_Z (- z))).

Definition to_float (n : number) : float :=
  match n with
  | Int z => of_Z z
  | Dbl f => f
  end.

(** [a / b]: always the double quotient. *)
Definition num_div (a b : number) : number :=
  Dbl (PrimFloat.div (to_float a) (to_float b)).

(** [a * b]. *)
Definition num_mul (a b : number) : number :=
  match a, b with
  | Int x, Int y => Int (x * y)
  | _, _ => Dbl (PrimFloat.mul (to_float a) (to_float b))
  end.

(** The integer part of a double (truncation toward zero); NaN and the
    infinities go to 0, as in WebIDL's integer conversions. *)
Definition float_trunc (f : float) : Z :=
  match Prim2SF f with
  | S754_finite s m e =>
      let a := if 0 <=? e then Z.pos m * 2 ^ e else Z.pos m / 2 ^ (- e) in
      if s then - a else a
  | _ => 0
  end.

(** WebIDL conversion of a JS number to [unsigned long]. *)
Definition to_unsigned_long (n : number) : Z :=
  match n with
  | Int z => z mod 2 ^ 32
  | Dbl f => float_trunc f mod 2 ^ 32
  end.

Definition is_finite (f : float) : bool :=
  negb (PrimFloat.is_nan f) && negb (PrimFloat.is_infinity f).

(** ** Pixels and bitmaps

    A bitmap is the flat byte array [ImageData.data] exposes: four bytes
    R, G, B, A per pixel, rows top to bottom. *)

Record rgba := { red : Z; green : Z; blue : Z; alpha : Z }.

Definition transparent : rgba := {| red := 0; green := 0; blue := 0; alpha := 0 |}.

Definition clamp255 (z : Z) : Z :=
  if z <? 0 then 0 else if 255 <? z then 255 else z.

Definition clamp_rgba (p : rgba) : rgba :=
  {| red := clamp255 (red p); green := clamp255 (green p);
     blue := clamp255 (blue p); alpha := clamp255 (alpha p) |}.

Definition byte_at (d : list Z) (i : nat) : Z := default 0 (d !! i).

Definition pixel_at (d : list Z) (k : nat) : rgba :=
  {| red := byte_at d (4 * k); green := byte_at d (4 * k + 1);
     blue := byte_at d (4 * k + 2); alpha := byte_at d (4 * k + 3) |}.

Fixpoint pixels_from (f : nat -> rgba) (start n : nat) : list Z :=
  match n with
  | O => []
  | S n' =>
      let p := f start in
      red p :: green p :: blue p :: alpha p :: pixels_from f (S start) n'
  end.

(** The bitmap of [n] pixels whose [k]-th pixel is [f k]. *)
Definition bitmap_of (n : nat) (f : nat -> rgba) : list Z := pixels_from f 0 n.

(** ** Canvas elements *)

Record Canvas := { width : Z; height : Z; data : list Z }.

Definition npixels (c : Canvas) : nat := Z.to_nat (width c * height c).

Definition col (c : Canvas) (k : nat) : Z := Z.of_nat k mod width c.
Definition row (c : Canvas) (k : nat) : Z := Z.of_nat k / width c.

(** A fresh bitmap: transparent black. *)
Definition blank (w h : Z) : Canvas :=
  {| width := w; height := h; data := replicate (4 * Z.to_nat (w * h)) 0 |}.

(** The [width] and [height] IDL attributes reflect content attributes
    limited to non-negative numbers: a value above 2147483647 falls back
    to the default (300 and 150). *)
Definition dim_value (dflt : Z) (v : number) : Z :=
  let u := to_unsigned_long v in
  if u <=? 2147483647 then u else dflt.

(** [c.width = v], [c.height = v]: the bitmap is replaced by a blank one. *)
Definition set_width (v : number) (c : Canvas) : Canvas :=
  blank (dim_value 300 v) (height c).

Definition set_height (v : number) (c : Canvas) : Canvas :=
  blank (width c) (dim_value 150 v).

Inductive DOMException :=
  | InvalidStateError
  | IndexSizeError.

(** [ctx.clearRect(x, y, w, h)]. *)
Definition clearRect (x y w h : Z) (c : Canvas) : Canvas :=
  {| width := width c; height := height c;
     data := bitmap_of (npixels c) (fun k =>
       if (x <=? col c k) && (col c k <? x + w) && (y <=? row c k) && (row c k <? y + h)
       then transparent else pixel_at (data c) k) |}.

(** Rounded division by 255, as used for 8-bit alpha products. *)
Definition div255 (x : Z) : Z := (x + 127) / 255.

(** A canvas bitmap keeps its colours premultiplied by alpha, eight bits
    a channel, while [ImageData] has them unpremultiplied.  A colour byte
    [c] written at alpha [a] is kept as [c * a / 255], rounded, and read
    back as that byte times [255 / a], rounded.  The bitmaps of this
    model are what [getImageData] reads; [stored p] is the pixel read
    back once [p] was written: [p] itself when [p] is opaque,
    transparent black when its alpha is 0, and otherwise a pixel whose
    colour bytes may differ from those of [p]. *)
Definition premultiply (c a : Z) : Z := (c * a + 127) / 255.

Definition unpremultiply (p a : Z) : Z :=
  if a =? 0 then 0 else (p * 255 + a / 2) / a.

Definition stored (p : rgba) : rgba :=
  let keep c := unpremultiply (premultiply c (alpha p)) (alpha p) in
  {| red := keep (red p); green := keep (green p); blue := keep (blue p);
     alpha := alpha p |}.

(** [source-over] of a source pixel whose alpha is [sa] onto [d], on the
    premultiplied bytes: the alpha is [sa + da * (1 - sa)], each colour
    the source's plus what [1 - sa] leaves of the destination's. *)
Definition over (s : rgba) (sa : Z) (d : rgba) : rgba :=
  if sa =? 0 then d
  else
    let oa := sa + div255 (alpha d * (255 - sa)) in
    let blend sc dc :=
      premultiply sc sa + div255 (premultiply dc (alpha d) * (255 - sa)) in
    {| red := unpremultiply (blend (red s) (red d)) oa;
       green := unpremultiply (blend (green s) (green d)) oa;
       blue := unpremultiply (blend (blue s) (blue d)) oa;
       alpha := oa |}.

(** [destination-out], on the premultiplied bytes: the alpha and each
    colour are what [1 - sa] leaves of the destination's. *)
Definition out (sa : Z) (d : rgba) : rgba :=
  if sa =? 0 then d
  else
    let oa := div255 (alpha d * (255 - sa)) in
    let rest dc := div255 (premultiply dc (alpha d) * (255 - sa)) in
    {| red := unpremultiply (rest (red d)) oa;
       green := unpremultiply (rest (green d)) oa;
       blue := unpremultiply (rest (blue d)) oa;
       alpha := oa |}.

(** [ctx.drawImage(src, 0, 0)] with [src] a canvas, under the default
    [source-over]: a source canvas with a zero dimension is an
    [InvalidStateError]. *)
Definition drawImage (src dst : Canvas) : DOMException + Canvas :=
  if (width src =? 0) || (height src =? 0) then inl InvalidStateError
  else inr
    {| width := width dst; height := height dst;
       data := bitmap_of (npixels dst) (fun k =>
         let x := col dst k in
         let y := row dst k in
         if (x <? width src) && (y <? height src)
         then let s := pixel_at (data src) (Z.to_nat (y * width src + x)) in
              over s (alpha s) (pixel_at (data dst) k)
         else pixel_at (data dst) k) |}.

Record ImageData := { iw : Z; ih : Z; idata : list Z }.

(** [ctx.getImageData(0, 0, c.width, c.height)]: a zero width or height
    argument is an [IndexSizeError]. *)
Definition getImageData (c : Canvas) : DOMException + ImageData :=
  if (width c =? 0) || (height c =? 0) then inl IndexSizeError
  else inr {| iw := width c; ih := height c; idata := data c |}.

(** [ctx.putImageData(img, 0, 0)]: the pixels replace those of the
    bitmap, without compositing; the bitmap keeps them premultiplied. *)
Definition putImageData (img : ImageData) (c : Canvas) : Canvas :=
  {| width := width c; height := height c;
     data := bitmap_of (npixels c) (fun k =>
       let x := col c k in
       let y := row c k in
       if (x <? iw img) && (y <? ih img)
       then stored (pixel_at (idata img) (Z.to_nat (y * iw img + x)))
       else pixel_at (data c) k) |}.

(** ** The 2D context of the mask canvas: drawing state and current path *)

Inductive CompositeOp := source_over | destination_out.
Inductive LineCap := cap_butt | cap_round | cap_square.
Inductive LineJoin := join_miter | join_round | join_bevel.

Definition point : Type := float * float.
Definition subpath : Type := list point.

Record Context2D := {
  lineWidth : Z;
  lineCap : LineCap;
  lineJoin : LineJoin;
  globalCompositeOperation : CompositeOp;
  strokeStyle : rgba;
  path : list subpath
}.

(** The state a context has when created, and again whenever its canvas
    is resized. *)
Definition default_context : Context2D :=
  {| lineWidth := 1; lineCap := cap_butt; lineJoin := join_miter;
     globalCompositeOperation := source_over;
     strokeStyle := {| red := 0; green := 0; blue := 0; alpha := 255 |};
     path := [] |}.

Definition with_path (sp : list subpath) (ctx : Context2D) : Context2D :=
  {| lineWidth := lineWidth ctx; lineCap := lineCap ctx; lineJoin := lineJoin ctx;
     globalCompositeOperation := globalCompositeOperation ctx;
     strokeStyle := strokeStyle ctx; path := sp |}.

(** [ctx.lineWidth = v]: zero and negative values are ignored. *)
Definition set_lineWidth (v : Z) (ctx : Context2D) : Context2D :=
  if 0 <? v then
    {| lineWidth := v; lineCap := lineCap ctx; lineJoin := lineJoin ctx;
       globalCompositeOperation := globalCompositeOperation ctx;
       strokeStyle := strokeStyle ctx; path := path ctx |}
  else ctx.

Definition set_lineCap (v : LineCap) (ctx : Context2D) : Context2D :=
  {| lineWidth := lineWidth ctx; lineCap := v; lineJoin := lineJoin ctx;
     globalCompositeOperation := globalCompositeOperation ctx;
     strokeStyle := strokeStyle ctx; path := path ctx |}.

Definition set_lineJoin (v : LineJoin) (ctx : Context2D) : Context2D :=
  {| lineWidth := lineWidth ctx; lineCap := lineCap ctx; lineJoin := v;
     globalCompositeOperation := globalCompositeOperation ctx;
     strokeStyle := strokeStyle ctx; path := path ctx |}.

Definition set_globalCompositeOperation (v : CompositeOp) (ctx : Context2D) : Context2D :=
  {| lineWidth := lineWidth ctx; lineCap := lineCap ctx; lineJoin := lineJoin ctx;
     globalCompositeOperation := v;
     strokeStyle := strokeStyle ctx; path := path ctx |}.

Definition set_strokeStyle (v : rgba) (ctx : Context2D) : Context2D :=
  {| lineWidth := lineWidth ctx; lineCap := lineCap ctx; lineJoin := lineJoin ctx;
     globalCompositeOperation := globalCompositeOperation ctx;
     strokeStyle := v; path := path ctx |}.

(** [ctx.beginPath()]: the current path has no subpaths afterwards. *)
Definition beginPath (ctx : Context2D) : Context2D := with_path [] ctx.

(** [ctx.moveTo(x, y)]: a new subpath whose only point is [(x, y)]. *)
Definition moveTo (x y : float) (ctx : Context2D) : Context2D :=
  if is_finite x && is_finite y then with_path (path ctx ++ [[(x, y)]]) ctx
  else ctx.

(** The point is added to the last subpath; a path with no subpaths gets
    a subpath made of the point alone, and no line. *)
Fixpoint extend_last (p : point) (sp : list subpath) : list subpath :=
  match sp with
  | [] => [[p]]
  | [s] => [s ++ [p]]
  | s :: rest => s :: extend_last p rest
  end.

(** [ctx.lineTo(x, y)]. *)
Definition lineTo (x y : float) (ctx : Context2D) : Context2D :=
  if is_finite x && is_finite y then with_path (extend_last (x, y) (path ctx)) ctx
  else ctx.

(** Tracing a path for [stroke()], steps 2 and 3 of the Standard's
    algorithm: zero-length line segments are pruned, then the subpaths
    left with a single point (no line) are removed. *)
Definition same_point (a b : point) : bool :=
  PrimFloat.eqb (fst a) (fst b) && PrimFloat.eqb (snd a) (snd b).

Fixpoint prune (s : subpath) : subpath :=
  match s with
  | a :: t =>
      match t with
      | b :: _ => if same_point a b then prune t else a :: prune t
      | [] => s
      end
  | [] => []
  end.

Definition has_line (s : subpath) : bool :=
  match s with
  | _ :: _ :: _ => true
  | _ => false
  end.

Definition trace_path (sp : list subpath) : list subpath :=
  List.filter has_line (prune <$> sp).

(** ** The page: session object, canvases, DOM nodes *)

Inductive Tool := brush | eraser.

(** The global [state] object. *)
Record Session := {
  tool : Tool;
  brushSize : Z;
  isDrawing : bool;
  imageLoaded : bool;
  hasResult : bool
}.

Record MouseEvent := { clientX : float; clientY : float }.

Record DOMRect := {
  rect_left : float; rect_top : float; rect_width : float; rect_height : float
}.

(** A decoded [Image]. *)
Record Image := { img_width : Z; img_height : Z; img_data : list Z }.

Record Download := { download : string; href : Canvas }.

(** What the script reads and writes of the DOM besides the canvases. *)
Record Page := {
  wrapperWidth : number;
  wrapperHeight : number;
  emptyStateDisplay : string;
  loaderDisplay : string;
  resultCanvasDisplay : string;
  maskCanvasOpacity : string;
  promptValue : string;
  maskRect : DOMRect;
  alerts : list string;
  console : list DOMException;
  downloads : list Download
}.

Record World := {
  state : Session;
  imgCanvas : Canvas;
  maskCanvas : Canvas;
  resultCanvas : Canvas;
  ctxMask : Context2D;
  page : Page;
  suspended : nat
}.

Definition set_state (s : Session) (W : World) : World :=
  {| state := s; imgCanvas := imgCanvas W; maskCanvas := maskCanvas W;
     resultCanvas := resultCanvas W; ctxMask := ctxMask W; page := page W;
     suspended := suspended W |}.

Definition set_imgCanvas (c : Canvas) (W : World) : World :=
  {| state := state W; imgCanvas := c; maskCanvas := maskCanvas W;
     resultCanvas := resultCanvas W; ctxMask := ctxMask W; page := page W;
     suspended := suspended W |}.

Definition set_maskCanvas (c : Canvas) (W : World) : World :=
  {| state := state W; imgCanvas := imgCanvas W; maskCanvas := c;
     resultCanvas := resultCanvas W; ctxMask := ctxMask W; page := page W;
     suspended := suspended W |}.

Definition set_resultCanvas (c : Canvas) (W : World) : World :=
  {| state := state W; imgCanvas := imgCanvas W; maskCanvas := maskCanvas W;
     resultCanvas := c; ctxMask := ctxMask W; page := page W;
     suspended := suspended W |}.

Definition set_ctxMask (ctx : Context2D) (W : World) : World :=
  {| state := state W; imgCanvas := imgCanvas W; maskCanvas := maskCanvas W;
     resultCanvas := resultCanvas W; ctxMask := ctx; page := page W;
     suspended := suspended W |}.

Definition set_page (p : Page) (W : World) : World :=
  {| state := state W; imgCanvas := imgCanvas W; maskCanvas := maskCanvas W;
     resultCanvas := resultCanvas W; ctxMask := ctxMask W; page := p;
     suspended := suspended W |}.

Definition set_suspended (n : nat) (W : World) : World :=
  {| state := state W; imgCanvas := imgCanvas W; maskCanvas := maskCanvas W;
     resultCanvas := resultCanvas W; ctxMask := ctxMask W; page := page W;
     suspended := n |}.

Definition set_tool (t : Tool) (s : Session) : Session :=
  {| tool := t; brushSize := brushSize s; isDrawing := isDrawing s;
     imageLoaded := imageLoaded s; hasResult := hasResult s |}.

Definition set_brushSize (v : Z) (s : Session) : Session :=
  {| tool := tool s; brushSize := v; isDrawing := isDrawing s;
     imageLoaded := imageLoaded s; hasResult := hasResult s |}.

Definition set_isDrawing (b : bool) (s : Session) : Session :=
  {| tool := tool s; brushSize := brushSize s; isDrawing := b;
     imageLoaded := imageLoaded s; hasResult := hasResult s |}.

Definition set_imageLoaded (b : bool) (s : Session) : Session :=
  {| tool := tool s; brushSize := brushSize s; isDrawing := isDrawing s;
     imageLoaded := b; hasResult := hasResult s |}.

Definition set_hasResult (b : bool) (s : Session) : Session :=
  {| tool := tool s; brushSize := brushSize s; isDrawing := isDrawing s;
     imageLoaded := imageLoaded s; hasResult := b |}.

Definition set_wrapperSize (w h : number) (p : Page) : Page :=
  {| wrapperWidth := w; wrapperHeight := h;
     emptyStateDisplay := emptyStateDisplay p; loaderDisplay := loaderDisplay p;
     resultCanvasDisplay := resultCanvasDisplay p;
     maskCanvasOpacity := maskCanvasOpacity p; promptValue := promptValue p;
     maskRect := maskRect p; alerts := alerts p; console := console p;
     downloads := downloads p |}.

Definition set_emptyStateDisplay (v : string) (p : Page) : Page :=
  {| wrapperWidth := wrapperWidth p; wrapperHeight := wrapperHeight p;
     emptyStateDisplay := v; loaderDisplay := loaderDisplay p;
     resultCanvasDisplay := resultCanvasDisplay p;
     maskCanvasOpacity := maskCanvasOpacity p; promptValue := promptValue p;
     maskRect := maskRect p; alerts := alerts p; console := console p;
     downloads := downloads p |}.

Definition set_loaderDisplay (v : string) (p : Page) : Page :=
  {| wrapperWidth := wrapperWidth p; wrapperHeight := wrapperHeight p;
     emptyStateDisplay := emptyStateDisplay p; loaderDisplay := v;
     resultCanvasDisplay := resultCanvasDisplay p;
     maskCanvasOpacity := maskCanvasOpacity p; promptValue := promptValue p;
     maskRect := maskRect p; alerts := alerts p; console := console p;
     downloads := downloads p |}.

Definition set_resultCanvasDisplay (v : string) (p : Page) : Page :=
  {| wrapperWidth := wrapperWidth p; wrapperHeight := wrapperHeight p;
     emptyStateDisplay := emptyStateDisplay p; loaderDisplay := loaderDisplay p;
     resultCanvasDisplay := v;
     maskCanvasOpacity := maskCanvasOpacity p; promptValue := promptValue p;
     maskRect := maskRect p; alerts := alerts p; console := console p;
     downloads := downloads p |}.

Definition set_maskCanvasOpacity (v : string) (p : Page) : Page :=
  {| wrapperWidth := wrapperWidth p; wrapperHeight := wrapperHeight p;
     emptyStateDisplay := emptyStateDisplay p; loaderDisplay := loaderDisplay p;
     resultCanvasDisplay := resultCanvasDisplay p;
     maskCanvasOpacity := v; promptValue := promptValue p;
     maskRect := maskRect p; alerts := alerts p; console := console p;
     downloads := downloads p |}.

Definition set_promptValue (v : string) (p : Page) : Page :=
  {| wrapperWidth := wrapperWidth p; wrapperHeight := wrapperHeight p;
     emptyStateDisplay := emptyStateDisplay p; loaderDisplay := loaderDisplay p;
     resultCanvasDisplay := resultCanvasDisplay p;
     maskCanvasOpacity := maskCanvasOpacity p; promptValue := v;
     maskRect := maskRect p; alerts := alerts p; console := console p;
     downloads := downloads p |}.

Definition set_maskRect (v : DOMRect) (p : Page) : Page :=
  {| wrapperWidth := wrapperWidth p; wrapperHeight := wrapperHeight p;
     emptyStateDisplay := emptyStateDisplay p; loaderDisplay := loaderDisplay p;
     resultCanvasDisplay := resultCanvasDisplay p;
     maskCanvasOpacity := maskCanvasOpacity p; promptValue := promptValue p;
     maskRect := v; alerts := alerts p; console := console p;
     downloads := downloads p |}.

(** [alert(msg)]. *)
Definition alert (msg : string) (p : Page) : Page :=
  {| wrapperWidth := wrapperWidth p; wrapperHeight := wrapperHeight p;
     emptyStateDisplay := emptyStateDisplay p; loaderDisplay := loaderDisplay p;
     resultCanvasDisplay := resultCanvasDisplay p;
     maskCanvasOpacity := maskCanvasOpacity p; promptValue := promptValue p;
     maskRect := maskRect p; alerts := alerts p ++ [msg]; console := console p;
     downloads := downloads p |}.

(** [console.error(err)]. *)
Definition console_error (err : DOMException) (p : Page) : Page :=
  {| wrapperWidth := wrapperWidth p; wrapperHeight := wrapperHeight p;
     emptyStateDisplay := emptyStateDisplay p; loaderDisplay := loaderDisplay p;
     resultCanvasDisplay := resultCanvasDisplay p;
     maskCanvasOpacity := maskCanvasOpacity p; promptValue := promptValue p;
     maskRect := maskRect p; alerts := alerts p; console := console p ++ [err];
     downloads := downloads p |}.

(** [link.click()] on an anchor with a [download] attribute. *)
Definition click_link (l : Download) (p : Page) : Page :=
  {| wrapperWidth := wrapperWidth p; wrapperHeight := wrapperHeight p;
     emptyStateDisplay := emptyStateDisplay p; loaderDisplay := loaderDisplay p;
     resultCanvasDisplay := resultCanvasDisplay p;
     maskCanvasOpacity := maskCanvasOpacity p; promptValue := promptValue p;
     maskRect := maskRect p; alerts := alerts p; console := console p;
     downloads := downloads p ++ [l] |}.

(** [stroke()] composites the stroke colour, weighted by the coverage
    [cov] (0..255) of the pixel, with the operator the context selects. *)
Definition composite (op : CompositeOp) (style : rgba) (cov : Z) (d : rgba) : rgba :=
  let sa := div255 (alpha style * cov) in
  match op with
  | source_over => over style sa d
  | destination_out => out sa d
  end.

(** ** A reference host

    The rasteriser behind [stroke()] and the filter behind a scaled
    [drawImage] belong to the browser.  The handlers below take them as
    parameters; these two are the plain ones used to run the model:
    centre sampling of the region within half a line width of a segment
    (what round caps and round joins sweep), and nearest-neighbour
    sampling. *)

Fixpoint segments (s : subpath) : list (point * point) :=
  match s with
  | a :: t =>
      match t with
      | b :: _ => (a, b) :: segments t
      | [] => []
      end
  | [] => []
  end.

Definition seg_dist2 (px py : float) (s : point * point) : float :=
  let '((ax, ay), (bx, b_y)) := s in
  let dx := (bx - ax)%float in
  let dy := (b_y - ay)%float in
  let t := (((px - ax) * dx + (py - ay) * dy) / (dx * dx + dy * dy))%float in
  let t := if PrimFloat.ltb t 0 then 0%float
           else if PrimFloat.ltb 1 t then 1%float else t in
  let cx := (ax + t * dx)%float in
  let cy := (ay + t * dy)%float in
  ((px - cx) * (px - cx) + (py - cy) * (py - cy))%float.

Definition centre_sample (lw : Z) (cap : LineCap) (join : LineJoin)
    (tr : list subpath) (x y : Z) : Z :=
  let px := (of_Z x + 0.5)%float in
  let py := (of_Z y + 0.5)%float in
  let r := (of_Z lw / 2)%float in
  if existsb (fun s => PrimFloat.leb (seg_dist2 px py s) (r * r)%float)
       (concat (segments <$> tr))
  then 255 else 0.

Definition nearest (img : Image) (dw dh : number) (x y : Z) : rgba :=
  let sx := float_trunc ((of_Z x + 0.5) * (of_Z (img_width img) / to_float dw))%float in
  let sy := float_trunc ((of_Z y + 0.5) * (of_Z (img_height img) / to_float dh))%float in
  if (sx <? img_width img) && (sy <? img_height img)
  then pixel_at (img_data img) (Z.to_nat (sy * img_width img + sx))
  else transparent.

(** ** The simulated generation (the loop of [runGeneration]) *)

(** [d[i] = v] on a [Uint8ClampedArray]: the value is clamped, NaN (here
    [None], from reading past the end) is stored as 0, and a store past
    the end is dropped. *)
Definition store_clamped (i : nat) (v : option Z) (d : list Z) : list Z :=
  <[i := match v with Some z => clamp255 z | None => 0 end]> d.

(** One iteration of the loop body, at byte offset [i]. *)
Definition simulate_step (mask : list Z) (result : list Z) (i : nat) : list Z :=
  if match mask !! (i + 3)%nat with Some a => 0 <? a | None => false end
  then
    let result := store_clamped i ((fun v => Z.rem (v + 50) 255) <$> result !! i) result in
    let result :=
      store_clamped (i + 1) ((fun v => Z.rem (v + 20) 255) <$> result !! (i + 1)%nat) result in
    store_clamped (i + 2) (Some 200) result
  else result.

(** The offsets [i = 0, 4, 8, ...] with [i < len]. *)
Definition offsets (len : nat) : list nat :=
  (fun k => 4 * k)%nat <$> seq 0 (Nat.div (len + 3) 4).

(** [for (let i = 0; i < imgData.data.length; i += 4) ...]. *)
Definition simulate (mask result : list Z) : list Z :=
  foldl (simulate_step mask) result (offsets (length mask)).

Inductive Outcome :=
  | Rejected (msg : string)
  | Completed
  | Failed (err : DOMException).

Inductive Event :=
  | ToolClick (t : Tool)
  | BrushSizeInput (v : Z)
  | ImageLoad (img : Image)
  | MouseDown (e : MouseEvent)
  | MouseMove (e : MouseEvent)
  | MouseUp
  | ClearMaskClick
  | GenerateClick
  | TimerFires
  | ExportClick
  | PromptInput (s : string)
  | Layout (r : DOMRect).

(** The page as loaded: the [state] object as the script initialises it,
    the three canvases blank at the sizes the markup gives them, and the
    DOM nodes as the markup has them. *)
Definition initial (img mask result : Z * Z) (p : Page) : World :=
  {| state := {| tool := brush; brushSize := 30; isDrawing := false;
                 imageLoaded := false; hasResult := false |};
     imgCanvas := blank (fst img) (snd img);
     maskCanvas := blank (fst mask) (snd mask);
     resultCanvas := blank (fst result) (snd result);
     ctxMask := default_context;
     page := p;
     suspended := 0 |}.

Section Host.

(** Coverage (0..255 after clamping) of the pixel [(x, y)] by the stroke
    of a traced path, and the pixel [(x, y)] of an image scaled to
    [dw] by [dh]. *)
Variable raster : Z -> LineCap -> LineJoin -> list subpath -> Z -> Z -> Z.
Variable resample : Image -> number -> number -> Z -> Z -> rgba.

Definition coverage (ctx : Context2D) (c : Canvas) (k : nat) : Z :=
  clamp255 (raster (lineWidth ctx) (lineCap ctx) (lineJoin ctx)
              (trace_path (path ctx)) (col c k) (row c k)).

(** [ctx.stroke()]: a traced path with no subpath left covers nothing. *)
Definition stroke (ctx : Context2D) (c : Canvas) : Canvas :=
  match trace_path (path ctx) with
  | [] => c
  | _ :: _ =>
      {| width := width c; height := height c;
         data := bitmap_of (npixels c) (fun k =>
           composite (globalCompositeOperation ctx) (strokeStyle ctx)
             (coverage ctx c k) (pixel_at (data c) k)) |}
  end.

(** [ctx.drawImage(img, 0, 0, dw, dh)]. *)
Definition drawImage_scaled (img : Image) (dw dh : number) (c : Canvas) : Canvas :=
  {| width := width c; height := height c;
     data := bitmap_of (npixels c) (fun k =>
       let s := clamp_rgba (resample img dw dh (col c k) (row c k)) in
       over s (alpha s) (pixel_at (data c) k)) |}.

(** [setTool]; the [active] class it moves between the two tool buttons
    is not part of the world. *)
Definition setTool (toolName : Tool) (W : World) : World :=
  set_state (set_tool toolName (state W)) W.

(** The [input] listener of the brush-size slider: [state.brushSize] is
    the parsed value ([updateCursorSize] only styles the cursor overlay). *)
Definition brushSizeInput (v : Z) (W : World) : World :=
  set_state (set_brushSize v (state W)) W.

Definition clearMask (W : World) : World :=
  set_maskCanvas
    (clearRect 0 0 (width (maskCanvas W)) (height (maskCanvas W)) (maskCanvas W)) W.

(** Resizing a canvas also resets its context to the default state. *)
Definition resizeCanvases (w h : number) (W : World) : World :=
  let resize c := set_height h (set_width w c) in
  {| state := state W;
     imgCanvas := resize (imgCanvas W);
     maskCanvas := resize (maskCanvas W);
     resultCanvas := resize (resultCanvas W);
     ctxMask := default_context;
     page := set_wrapperSize w h (page W);
     suspended := suspended W |}.

Definition maxWidth : Z := 2048.

(** [handleImageUpload]: the body of [img.onload], run once the file is
    read and decoded into [img]. *)
Definition handleImageUpload (img : Image) (W : World) : World :=
  let w := img_width img in
  let h := img_height img in
  let '(finalW, finalH) :=
    if maxWidth <? w then
      let ratio := num_div (Int maxWidth) (Int w) in
      (Int maxWidth, num_mul (Int h) ratio)
    else (Int w, Int h) in
  let W := resizeCanvases finalW finalH W in
  let W := set_imgCanvas (drawImage_scaled img finalW finalH (imgCanvas W)) W in
  let W := set_page (set_emptyStateDisplay "none" (page W)) W in
  let W := set_state (set_imageLoaded true (state W)) W in
  let W := set_state (set_hasResult false (state W)) W in
  let W := set_page (set_resultCanvasDisplay "none" (page W)) W in
  clearMask W.

Definition paint (e : MouseEvent) (W : World) : World :=
  let rect := maskRect (page W) in
  let scaleX := (of_Z (width (maskCanvas W)) / rect_width rect)%float in
  let scaleY := (of_Z (height (maskCanvas W)) / rect_height rect)%float in
  let x := ((clientX e - rect_left rect) * scaleX)%float in
  let y := ((clientY e - rect_top rect) * scaleY)%float in
  let ctx := set_lineWidth (brushSize (state W)) (ctxMask W) in
  let ctx := set_lineCap cap_round ctx in
  let ctx := set_lineJoin join_round ctx in
  let ctx :=
    match tool (state W) with
    | brush =>
        set_strokeStyle {| red := 255; green := 50; blue := 50; alpha := 255 |}
          (set_globalCompositeOperation source_over ctx)
    | eraser =>
        set_strokeStyle {| red := 0; green := 0; blue := 0; alpha := 255 |}
          (set_globalCompositeOperation destination_out ctx)
    end in
  let ctx := lineTo x y ctx in
  let mask := stroke ctx (maskCanvas W) in
  let ctx := beginPath ctx in
  let ctx := moveTo x y ctx in
  set_ctxMask ctx (set_maskCanvas mask W).

Definition startDraw (e : MouseEvent) (W : World) : World :=
  if negb (imageLoaded (state W)) then W
  else paint e (set_state (set_isDrawing true (state W)) W).

Definition stopDraw (W : World) : World :=
  set_ctxMask (beginPath (ctxMask W))
    (set_state (set_isDrawing false (state W)) W).

Definition draw (e : MouseEvent) (W : World) : World :=
  if negb (isDrawing (state W)) then W else paint e W.

(** [runGeneration] up to its [await]: the two guards, then the loader
    is shown and the call is suspended on the timer.  (The two
    [toDataURL] strings prepared for a real backend are read and never
    used.) *)
Definition runGeneration_start (W : World) : World * option Outcome :=
  if negb (imageLoaded (state W)) then
    let msg := "Please upload an image first."%string in
    (set_page (alert msg (page W)) W, Some (Rejected msg))
  else
    let prompt := promptValue (page W) in
    if String.eqb prompt "" then
      let msg := "Please enter a prompt describing the change."%string in
      (set_page (alert msg (page W)) W, Some (Rejected msg))
    else
      (set_suspended (S (suspended W))
         (set_page (set_loaderDisplay "flex" (page W)) W), None).

(** The [try] block after the delay.  An exception leaves the world as
    the statements before it made it. *)
Definition try_block (W : World) : World * option DOMException :=
  let res := resultCanvas W in
  let W := set_resultCanvas (clearRect 0 0 (width res) (height res) res) W in
  match drawImage (imgCanvas W) (resultCanvas W) with
  | inl err => (W, Some err)
  | inr res =>
      let W := set_resultCanvas res W in
      match getImageData (maskCanvas W) with
      | inl err => (W, Some err)
      | inr imgData =>
          match getImageData (resultCanvas W) with
          | inl err => (W, Some err)
          | inr resultData =>
              let resultData :=
                {| iw := iw resultData; ih := ih resultData;
                   idata := simulate (idata imgData) (idata resultData) |} in
              let W := set_resultCanvas (putImageData resultData (resultCanvas W)) W in
              let W := set_page (set_resultCanvasDisplay "block" (page W)) W in
              let W := set_state (set_hasResult true (state W)) W in
              let W := set_page (set_maskCanvasOpacity "0" (page W)) W in
              (W, None)
          end
      end
  end.

(** [runGeneration] from the timer on: [try], [catch], [finally]. *)
Definition runGeneration_resume (W : World) : World * Outcome :=
  let '(W, thrown) := try_block W in
  let '(W, outcome) :=
    match thrown with
    | None => (W, Completed)
    | Some err =>
        let W := set_page (console_error err (page W)) W in
        (set_page (alert "AI Generation failed. Check console." (page W)) W,
         Failed err)
    end in
  (set_suspended (Nat.pred (suspended W))
     (set_page (set_loaderDisplay "none" (page W)) W), outcome).

(** A whole call with no other event during the delay. *)
Definition runGeneration (W : World) : World * Outcome :=
  match runGeneration_start W with
  | (W, Some o) => (W, o)
  | (W, None) => runGeneration_resume W
  end.

Definition exportImage (W : World) : World :=
  if negb (imageLoaded (state W)) then W
  else
    let link :=
      {| download := "vivopaint-export.png";
         href := if hasResult (state W) then resultCanvas W else imgCanvas W |} in
    set_page (click_link link (page W)) W.

(** The listeners [init] registers, as one transition function. *)
Definition handle (ev : Event) (W : World) : World :=
  match ev with
  | ToolClick t => setTool t W
  | BrushSizeInput v => brushSizeInput v W
  | ImageLoad img => handleImageUpload img W
  | MouseDown e => startDraw e W
  | MouseMove e => draw e W
  | MouseUp => stopDraw W
  | ClearMaskClick => clearMask W
  | GenerateClick => fst (runGeneration_start W)
  | TimerFires =>
      match suspended W with
      | O => W
      | S _ => fst (runGeneration_resume W)
      end
  | ExportClick => exportImage W
  | PromptInput s => set_page (set_promptValue s (page W)) W
  | Layout r => set_page (set_maskRect r (page W)) W
  end.

Definition run (evs : list Event) (W : World) : World :=
  foldl (fun W ev => handle ev W) W evs.

End Host.

(** ** Well-formed worlds

    What holds of every world the handlers can produce: each canvas holds
    [4 * width * height] bytes; the pixels of the image canvas are
    pixels a bitmap can hold, so that writing one of them to a bitmap
    and reading it back returns it (they come out of [source-over] on a
    blank bitmap); and once an image is loaded the three canvases have
    the same size, [resizeCanvases] being the only place a size is set. *)

Definition is_byte (b : Z) : Prop := 0 <= b <= 255.

Definition wf_rgba (p : rgba) : Prop :=
  is_byte (red p) /\ is_byte (green p) /\ is_byte (blue p) /\ is_byte (alpha p).

Definition wf_canvas (c : Canvas) : Prop :=
  0 <= width c /\ 0 <= height c /\
  length (data c) = (4 * npixels c)%nat /\
  Forall is_byte (data c).

(** The pixels of [d] are pixels a canvas bitmap can hold. *)
Definition canonical (d : list Z) : Prop :=
  forall k : nat, stored (pixel_at d k) = pixel_at d k.

(** The bitmap of [n] pixels a canvas holds once the bytes [d] were put
    on it. *)
Definition stored_bitmap (n : nat) (d : list Z) : list Z :=
  bitmap_of n (fun k => stored (pixel_at d k)).

Definition same_size (a b : Canvas) : Prop :=
  width a = width b /\ height a = height b.

Definition wf_world (W : World) : Prop :=
  wf_canvas (imgCanvas W) /\ wf_canvas (maskCanvas W) /\ wf_canvas (resultCanvas W) /\
  canonical (data (imgCanvas W)) /\
  wf_rgba (strokeStyle (ctxMask W)) /\
  (imageLoaded (state W) = true ->
   same_size (maskCanvas W) (imgCanvas W) /\ same_size (resultCanvas W) (imgCanvas W)).

(** Alpha of the [k]-th pixel of a canvas. *)
Definition alpha_at (c : Canvas) (k : nat) : Z := alpha (pixel_at (data c) k).

(** The placeholder transform of the generation step, on one pixel. *)
Definition shifted (p : rgba) : rgba :=
  {| red := (red p + 50) mod 255; green := (green p + 20) mod 255;
     blue := 200; alpha := alpha p |}.

(** What the specification asks of the stored height of a wide image:
    [round (h * 2048 / w)], to the nearest integer, halves up. *)
Definition rounded_height (w h : Z) : Z := (2 * h * maxWidth + w) / (2 * w).

Definition valid_size (s : Z * Z) : Prop := 0 <= fst s /\ 0 <= snd s.

(** Reachability from a freshly loaded page. *)
Definition reachable
    (raster : Z -> LineCap -> LineJoin -> list subpath -> Z -> Z -> Z)
    (resample : Image -> number -> number -> Z -> Z -> rgba) (W : World) : Prop :=
  exists img mask result p evs,
    valid_size img /\ valid_size mask /\ valid_size result /\
    W = run raster resample evs (initial img mask result p).

(** The size [handleImageUpload] passes to [resizeCanvases]. *)
Definition final_size (img : Image) : number * number :=
  if maxWidth <? img_width img then
    (Int maxWidth,
     num_mul (Int (img_height img)) (num_div (Int maxWidth) (Int (img_width img))))
  else (Int (img_width img), Int (img_height img)).

(** No stroke in progress: the current path of the mask context is empty
    ([stopDraw] ends every stroke with [beginPath]). *)
Definition idle_path (W : World) : Prop :=
  isDrawing (state W) = false -> path (ctxMask W) = [].

(** ** Sample sessions, run on the reference host *)

Definition unit_rect (w h : Z) : DOMRect :=
  {| rect_left := 0; rect_top := 0; rect_width := of_Z w; rect_height := of_Z h |}.

Definition at_pixel (x y : Z) : MouseEvent :=
  {| clientX := of_Z x; clientY := of_Z y |}.

(** A 4 by 4 image whose bytes are 0, 3, 6, ...; its first pixel has
    alpha 9, its last alpha 189. *)
Definition image4 : Image :=
  {| img_width := 4; img_height := 4;
     img_data := (fun k => Z.of_nat k * 3 mod 256) <$> seq 0 64 |}.

(** The same image with every pixel opaque. *)
Definition image_opaque : Image :=
  {| img_width := 4; img_height := 4;
     img_data := (fun k => if (k mod 4 =? 3)%nat then 255 else Z.of_nat k * 3 mod 256)
                   <$> seq 0 64 |}.

(** A wide image, 8192 by 7, and one so flat that it scales to no row. *)
Definition image_wide : Image :=
  {| img_width := 8192; img_height := 7; img_data := replicate (Z.to_nat (4 * 8192 * 7)) 255 |}.

Definition image_flat : Image :=
  {| img_width := 8192; img_height := 3; img_data := replicate (Z.to_nat (4 * 8192 * 3)) 255 |}.

(** A page with default-sized canvases, the mask canvas laid out at its
    own size (4 by 4 CSS pixels once the sample image is loaded). *)
Definition sample_page : Page :=
  {| wrapperWidth := Int 300; wrapperHeight := Int 150;
     emptyStateDisplay := "flex"; loaderDisplay := "none";
     resultCanvasDisplay := "none"; maskCanvasOpacity := "1";
     promptValue := ""; maskRect := unit_rect 4 4; alerts := [];
     console := []; downloads := [] |}.

Definition session (evs : list Event) : World :=
  run centre_sample nearest evs (initial (300, 150) (300, 150) (300, 150) sample_page).

(** The image loaded, nothing painted. *)
Definition loaded_events : list Event := [ImageLoad image4; BrushSizeInput 2].

(** A brush stroke from pixel (2, 2) to pixel (3, 2), then a prompt. *)
Definition painted_events : list Event :=
  loaded_events ++
  [MouseDown (at_pixel 2 2); MouseMove (at_pixel 3 2); MouseUp; PromptInput "test"].

(** The same stroke and prompt on the opaque image. *)
Definition opaque_events : list Event :=
  [ImageLoad image_opaque; BrushSizeInput 2;
   MouseDown (at_pixel 2 2); MouseMove (at_pixel 3 2); MouseUp; PromptInput "test"].

(** The same stroke, then the eraser selected and pressed at pixel (2, 2). *)
Definition eraser_events : list Event :=
  painted_events ++ [ToolClick eraser; MouseDown (at_pixel 2 2)].

(** The flat image loaded and a prompt typed. *)
Definition flat_events : list Event := [ImageLoad image_flat; PromptInput "test"].

(** A single click at pixel (2, 2): button down, button up. *)
Definition click_events : list Event :=
  loaded_events ++ [MouseDown (at_pixel 2 2); MouseUp].

(** The integer part of the double [h * (2048 / w)]. *)
Definition scaled_height (w h : Z) : Z :=
  float_trunc (of_Z h * (of_Z maxWidth / of_Z w))%float.

(** ** The stroke [paint] issues

    The image-space point a pointer event maps to, and the context
    [paint] hands to [stroke()]: the drawing state set from the session,
    with the point added to the current path. *)

Definition to_image_space (e : MouseEvent) (W : World) : point :=
  let rect := maskRect (page W) in
  let scaleX := (of_Z (width (maskCanvas W)) / rect_width rect)%float in
  let scaleY := (of_Z (height (maskCanvas W)) / rect_height rect)%float in
  (((clientX e - rect_left rect) * scaleX)%float,
   ((clientY e - rect_top rect) * scaleY)%float).

Definition tool_operation (t : Tool) : CompositeOp :=
  match t with brush => source_over | eraser => destination_out end.

Definition tool_colour (t : Tool) : rgba :=
  match t with
  | brush => {| red := 255; green := 50; blue := 50; alpha := 255 |}
  | eraser => {| red := 0; green := 0; blue := 0; alpha := 255 |}
  end.

Definition painting_context (e : MouseEvent) (W : World) : Context2D :=
  lineTo (fst (to_image_space e W)) (snd (to_image_space e W))
    (set_strokeStyle (tool_colour (tool (state W)))
       (set_globalCompositeOperation (tool_operation (tool (state W)))
          (set_lineJoin join_round
             (set_lineCap cap_round
                (set_lineWidth (brushSize (state W)) (ctxMask W)))))).

(** The pointer events, the ones [startDraw], [draw] and [stopDraw] hear. *)
Definition is_mouse (ev : Event) : bool :=
  match ev with
  | MouseDown _ | MouseMove _ | MouseUp => true
  | _ => false
  end.

(** ** [dataURItoBlob]

    Strings are sequences of code units below 256, which is all a data
    URL and the output of [atob] hold. *)

(** [s.split(sep)] for a separator of one character: never empty. *)
Fixpoint split_on (sep : Ascii.ascii) (s : string) : list string :=
  match s with
  | EmptyString => [EmptyString]
  | String c s' =>
      if Ascii.eqb c sep then EmptyString :: split_on sep s'
      else
        match split_on sep s' with
        | h :: t => String c h :: t
        | [] => [String c EmptyString]
        end
  end.

(** [s.charCodeAt(i)]: NaN (here [None]) past the end. *)
Definition charCodeAt (s : string) (i : nat) : option Z :=
  (fun c => Z.of_nat (Ascii.nat_of_ascii c)) <$> String.get i s.

(** [ia[i] = v] on a [Uint8Array]: the value is taken modulo 256, NaN is
    stored as 0, and a store past the end is dropped. *)
Definition store_uint8 (i : nat) (v : option Z) (ia : list Z) : list Z :=
  <[i := match v with Some z => z mod 256 | None => 0 end]> ia.

Definition lower (c : Ascii.ascii) : Ascii.ascii :=
  let n := Ascii.nat_of_ascii c in
  if (65 <=? n)%nat && (n <=? 90)%nat then Ascii.ascii_of_nat (n + 32) else c.

Definition printable (c : Ascii.ascii) : bool :=
  let n := Ascii.nat_of_ascii c in (32 <=? n)%nat && (n <=? 126)%nat.

(** The [type] a [Blob] is given: empty when the option holds a character
    outside U+0020..U+007E, else the option in ASCII lower case. *)
Definition blob_type_of (t : string) : string :=
  if forallb printable (String.list_ascii_of_string t)
  then String.string_of_list_ascii (lower <$> String.list_ascii_of_string t)
  else EmptyString.

Record Blob := { blob_bytes : list Z; blob_type : string }.

(** The characters [,], [:] and [;]. *)
Definition comma : Ascii.ascii := Ascii.ascii_of_nat 44.
Definition colon : Ascii.ascii := Ascii.ascii_of_nat 58.
Definition semicolon : Ascii.ascii := Ascii.ascii_of_nat 59.

Inductive JSError :=
  | InvalidCharacterError
  | TypeError.

Section Base64.

(** [atob]: the decoded string, or [None] for the
    [InvalidCharacterError] it throws on text that is not base64. *)
Variable atob : string -> option string.

Definition dataURItoBlob (dataURI : string) : JSError + Blob :=
  match atob (default "undefined"%string (split_on comma dataURI !! 1%nat)) with
  | None => inl InvalidCharacterError
  | Some byteString =>
      match split_on colon (default EmptyString (split_on comma dataURI !! 0%nat)) !! 1%nat with
      | None => inl TypeError
      | Some rest =>
          let mimeString := default EmptyString (split_on semicolon rest !! 0%nat) in
          let ab := replicate (String.length byteString) 0 in
          let ia :=
            foldl (fun ia i => store_uint8 i (charCodeAt byteString i) ia) ab
              (seq 0 (String.length byteString)) in
          inr {| blob_bytes := ia; blob_type := blob_type_of mimeString |}
      end
  end.

End Base64.

(** The code units of a string. *)
Definition code_units (s : string) : list Z :=
  (fun c => Z.of_nat (Ascii.nat_of_ascii c)) <$> String.list_ascii_of_string s.

(** A string without the character [c]. *)
Definition free_of (c : Ascii.ascii) (s : string) : Prop :=
  ~ In c (String.list_ascii_of_string s).

(** A stand-in for [atob] that knows one text: "QUJD" is base64 for
    "ABC". *)
Definition atob_sample (s : string) : option string :=
  if String.eqb s "QUJD" then Some "ABC"%string else None.

(** Further sessions: a stroke left in progress, and a layout in which
    the mask canvas has no width. *)
Definition drawing_events : list Event :=
  loaded_events ++ [MouseDown (at_pixel 2 2)].

Definition collapsed_events : list Event :=
  drawing_events ++ [Layout (unit_rect 0 4)].

Definition generated_events : list Event :=
  painted_events ++ [GenerateClick; TimerFires].

(** The image loaded and a prompt typed, nothing painted. *)
Definition ready_events : list Event := loaded_events ++ [PromptInput "test"].


(** What a user may do after a generation: upload again, clear, paint. *)
Definition later_events : list Event :=
  [ImageLoad image4; ClearMaskClick; MouseDown (at_pixel 1 1); MouseMove (at_pixel 2 1);
   MouseUp].

(** The current path between two events: empty, or one subpath of one
    point. *)
Definition short_path (W : World) : Prop :=
  path (ctxMask W) = [] \/ exists p, path (ctxMask W) = [[p]].

(** * Properties *)

(** ** Bitmaps *)

Lemma length_pixels_from f s n : length (pixels_from f s n) = (4 * n)%nat.
Proof. revert s; induction n as [|n IH]; intros s; simpl; [done|]. rewrite IH. lia. Qed.

Lemma length_bitmap_of n f : length (bitmap_of n f) = (4 * n)%nat.
Proof. apply length_pixels_from. Qed.

Lemma pixel_at_pixels_from f s n k :
  (k < n)%nat -> pixel_at (pixels_from f s n) k = f (s + k)%nat.
Proof.
  revert s k; induction n as [|n IH]; intros s k Hk; [lia|].
  destruct k as [|k].
  - rewrite Nat.add_0_r. simpl. by destruct (f s).
  - replace (s + S k)%nat with (S s + k)%nat by lia.
    rewrite <- (IH (S s) k) by lia.
    unfold pixel_at, byte_at. simpl pixels_from.
    replace (4 * S k)%nat with (S (S (S (S (4 * k))))) by lia.
    reflexivity.
Qed.

Lemma pixel_at_bitmap_of n f k : (k < n)%nat -> pixel_at (bitmap_of n f) k = f k.
Proof. intros Hk. unfold bitmap_of. by rewrite pixel_at_pixels_from. Qed.

Lemma pixels_from_ext f g s n :
  (forall k, (k < n)%nat -> f (s + k)%nat = g (s + k)%nat) ->
  pixels_from f s n = pixels_from g s n.
Proof.
  revert s; induction n as [|n IH]; intros s H; [done|].
  pose proof (H 0%nat ltac:(lia)) as H0. rewrite Nat.add_0_r in H0.
  simpl. rewrite H0. do 4 f_equal. apply IH.
  intros k Hk. replace (S s + k)%nat with (s + S k)%nat by lia. apply H. lia.
Qed.

Lemma bitmap_of_ext n f g :
  (forall k, (k < n)%nat -> f k = g k) -> bitmap_of n f = bitmap_of n g.
Proof. intros H. apply pixels_from_ext. intros k Hk. simpl. by apply H. Qed.

Lemma Forall_pixels_from (P : Z -> Prop) f s n :
  (forall k, (k < n)%nat ->
     P (red (f (s + k)%nat)) /\ P (green (f (s + k)%nat)) /\
     P (blue (f (s + k)%nat)) /\ P (alpha (f (s + k)%nat))) ->
  Forall P (pixels_from f s n).
Proof.
  revert s; induction n as [|n IH]; intros s H; simpl; [constructor|].
  destruct (H 0%nat) as (Hr & Hg & Hb & Ha); [lia|]. rewrite Nat.add_0_r in *.
  repeat (constructor; [assumption|]).
  apply IH. intros k Hk. replace (S s + k)%nat with (s + S k)%nat by lia. apply H. lia.
Qed.

Lemma Forall_bitmap_of (P : Z -> Prop) n f :
  (forall k, (k < n)%nat ->
     P (red (f k)) /\ P (green (f k)) /\ P (blue (f k)) /\ P (alpha (f k))) ->
  Forall P (bitmap_of n f).
Proof. intros H. apply Forall_pixels_from. intros k Hk. by apply H. Qed.

Lemma pixels_from_pixel_at d s n :
  length d = (4 * n)%nat ->
  pixels_from (fun k => pixel_at d (k - s)) s n = d.
Proof.
  revert d s; induction n as [|n IH]; intros d s Hlen.
  - by destruct d.
  - destruct d as [|r [|g [|b [|a d]]]]; simpl in Hlen; try lia.
    simpl pixels_from. rewrite Nat.sub_diag.
    change (red (pixel_at (r :: g :: b :: a :: d) 0)) with r.
    change (green (pixel_at (r :: g :: b :: a :: d) 0)) with g.
    change (blue (pixel_at (r :: g :: b :: a :: d) 0)) with b.
    change (alpha (pixel_at (r :: g :: b :: a :: d) 0)) with a.
    do 4 f_equal.
    transitivity (pixels_from (fun k => pixel_at d (k - S s)) (S s) n);
      [|apply IH; lia].
    apply pixels_from_ext. intros k Hk.
    replace (S s + k - s)%nat with (S k) by lia.
    replace (S s + k - S s)%nat with k by lia.
    unfold pixel_at, byte_at.
    replace (4 * S k)%nat with (S (S (S (S (4 * k))))) by lia. reflexivity.
Qed.

Lemma bitmap_of_pixel_at d n :
  length d = (4 * n)%nat -> bitmap_of n (pixel_at d) = d.
Proof.
  intros Hlen.
  transitivity (pixels_from (fun k => pixel_at d (k - 0)) 0 n);
    [|by apply pixels_from_pixel_at].
  apply bitmap_of_ext. intros k _. by rewrite Nat.sub_0_r.
Qed.

Lemma byte_at_is_byte d i : Forall is_byte d -> is_byte (byte_at d i).
Proof.
  intros H. unfold byte_at. destruct (d !! i) as [b|] eqn:E; simpl.
  - eapply Forall_lookup_1; eauto.
  - unfold is_byte; lia.
Qed.

Lemma pixel_at_wf d k : Forall is_byte d -> wf_rgba (pixel_at d k).
Proof. intros H. repeat split; apply byte_at_is_byte; assumption. Qed.

Lemma pixel_at_replicate n k : pixel_at (replicate n 0) k = transparent.
Proof.
  unfold pixel_at, byte_at, transparent.
  assert (E : forall i, default 0 (replicate n 0 !! i) = 0).
  { intros i. destruct (replicate n 0 !! i) eqn:E; [|done].
    apply lookup_replicate in E as [-> _]. done. }
  by rewrite !E.
Qed.

(** ** Pixel coordinates *)

Lemma col_row_spec c k :
  0 <= width c -> (k < npixels c)%nat ->
  0 <= col c k < width c /\ 0 <= row c k < height c /\
  Z.to_nat (row c k * width c + col c k) = k.
Proof.
  intros Hw Hk. unfold npixels, col, row in *.
  assert (0 < width c).
  { destruct (Z.eq_dec (width c) 0) as [E|]; [|lia].
    rewrite E, Z.mul_0_l in Hk. simpl in Hk. lia. }
  assert (0 <= Z.of_nat k < width c * height c) by lia.
  pose proof (Z.mod_pos_bound (Z.of_nat k) (width c) ltac:(lia)).
  pose proof (Z.div_mod (Z.of_nat k) (width c) ltac:(lia)).
  pose proof (Z.div_pos (Z.of_nat k) (width c) ltac:(lia) ltac:(lia)).
  assert (Z.of_nat k / width c < height c).
  { apply Z.div_lt_upper_bound; lia. }
  repeat split; try lia.
Qed.

Lemma same_size_npixels a b : same_size a b -> npixels a = npixels b.
Proof. intros [Hw Hh]. unfold npixels. by rewrite Hw, Hh. Qed.

(** ** Canvas operations *)

Lemma blank_wf w h : 0 <= w -> 0 <= h -> wf_canvas (blank w h).
Proof.
  intros Hw Hh. unfold wf_canvas, blank, npixels; simpl.
  repeat split; try assumption.
  - by rewrite length_replicate.
  - apply Forall_replicate. unfold is_byte; lia.
Qed.

Lemma blank_transparent w h k : pixel_at (data (blank w h)) k = transparent.
Proof. apply pixel_at_replicate. Qed.

Lemma to_unsigned_long_range v : 0 <= to_unsigned_long v < 2 ^ 32.
Proof. destruct v; simpl; apply Z.mod_pos_bound; lia. Qed.

Lemma dim_value_nonneg dflt v : 0 <= dflt -> 0 <= dim_value dflt v.
Proof.
  intros H. unfold dim_value. pose proof (to_unsigned_long_range v).
  destruct (_ <=? _); lia.
Qed.

Lemma clearRect_data c :
  0 <= width c ->
  data (clearRect 0 0 (width c) (height c) c) = bitmap_of (npixels c) (fun _ => transparent).
Proof.
  intros Hw. simpl. apply bitmap_of_ext. intros k Hk.
  destruct (col_row_spec c k Hw Hk) as (Hc & Hr & _).
  replace (0 <=? col c k) with true by (symmetry; apply Z.leb_le; lia).
  replace (col c k <? 0 + width c) with true by (symmetry; apply Z.ltb_lt; lia).
  replace (0 <=? row c k) with true by (symmetry; apply Z.leb_le; lia).
  replace (row c k <? 0 + height c) with true by (symmetry; apply Z.ltb_lt; lia).
  reflexivity.
Qed.

Lemma transparent_wf : wf_rgba transparent.
Proof. unfold wf_rgba, is_byte; simpl; lia. Qed.

Lemma bitmap_canvas_wf w h f :
  0 <= w -> 0 <= h ->
  (forall k, wf_rgba (f k)) ->
  wf_canvas {| width := w; height := h; data := bitmap_of (Z.to_nat (w * h)) f |}.
Proof.
  intros Hw Hh Hf. unfold wf_canvas, npixels; simpl.
  repeat split; try assumption.
  - apply length_bitmap_of.
  - apply Forall_bitmap_of. intros k _. apply Hf.
Qed.

Lemma clearRect_wf x y w h c : wf_canvas c -> wf_canvas (clearRect x y w h c).
Proof.
  intros (Hw & Hh & Hlen & Hb). unfold clearRect.
  apply bitmap_canvas_wf; try assumption.
  intros k. destruct (_ && _); [apply transparent_wf | by apply pixel_at_wf].
Qed.

Lemma clearRect_transparent c k :
  0 <= width c -> (k < npixels c)%nat ->
  pixel_at (data (clearRect 0 0 (width c) (height c) c)) k = transparent.
Proof.
  intros Hw Hk. rewrite clearRect_data by assumption.
  by rewrite pixel_at_bitmap_of.
Qed.

(** ** Premultiplied storage *)

Lemma premultiply_bound c a : 0 <= c <= 255 -> 0 <= a -> 0 <= premultiply c a <= a.
Proof.
  intros Hc Ha. unfold premultiply. split.
  - apply Z.div_pos; nia.
  - assert ((c * a + 127) / 255 < a + 1); [|lia]. apply Z.div_lt_upper_bound; nia.
Qed.

Lemma unpremultiply_bound p a : 0 <= p <= a -> a <= 255 -> 0 <= unpremultiply p a <= 255.
Proof.
  intros Hp Ha. unfold unpremultiply. destruct (a =? 0) eqn:E; [lia|].
  apply Z.eqb_neq in E. assert (0 < a) by lia.
  assert (0 <= a / 2) by (apply Z.div_pos; lia).
  assert (a / 2 < a) by (apply Z.div_lt; lia).
  split.
  - apply Z.div_pos; nia.
  - assert ((p * 255 + a / 2) / a < 256); [|lia]. apply Z.div_lt_upper_bound; nia.
Qed.

(** Reading a premultiplied byte and writing it back returns it: the
    bitmap loses nothing on what it holds already. *)
Lemma premultiply_unpremultiply p a :
  0 <= p <= a -> 0 < a <= 255 -> premultiply (unpremultiply p a) a = p.
Proof.
  intros Hp Ha. unfold premultiply, unpremultiply.
  replace (a =? 0) with false by (symmetry; apply Z.eqb_neq; lia).
  set (h := a / 2).
  assert (Hh : 2 * h <= a < 2 * h + 2).
  { unfold h. pose proof (Z.div_mod a 2 ltac:(lia)).
    pose proof (Z.mod_pos_bound a 2 ltac:(lia)). lia. }
  set (u := (p * 255 + h) / a).
  assert (Hu : u * a <= p * 255 + h < u * a + a).
  { unfold u. pose proof (Z.div_mod (p * 255 + h) a ltac:(lia)).
    pose proof (Z.mod_pos_bound (p * 255 + h) a ltac:(lia)). nia. }
  symmetry. apply (Z.div_unique _ _ _ (u * a + 127 - 255 * p)); lia.
Qed.

Lemma stored_alpha p : alpha (stored p) = alpha p.
Proof. reflexivity. Qed.

Lemma stored_channel c a :
  is_byte c -> is_byte a -> is_byte (unpremultiply (premultiply c a) a).
Proof.
  intros Hc Ha. apply unpremultiply_bound; [|apply Ha].
  apply premultiply_bound; [apply Hc|apply Ha].
Qed.

Lemma stored_wf p : wf_rgba p -> wf_rgba (stored p).
Proof.
  intros (Hr & Hg & Hb & Ha).
  refine (conj _ (conj _ (conj _ Ha))); by apply stored_channel.
Qed.

Lemma stored_channel_idem c a :
  is_byte c -> is_byte a ->
  unpremultiply (premultiply (unpremultiply (premultiply c a) a) a) a =
  unpremultiply (premultiply c a) a.
Proof.
  intros Hc Ha. destruct (Z.eq_dec a 0) as [->|Hne]; [reflexivity|].
  f_equal. apply premultiply_unpremultiply; [|unfold is_byte in Ha; lia].
  apply premultiply_bound; [apply Hc|apply Ha].
Qed.

(** What a bitmap holds it holds again when written back. *)
Lemma stored_idem p : wf_rgba p -> stored (stored p) = stored p.
Proof.
  intros (Hr & Hg & Hb & Ha). unfold stored. cbn [red green blue alpha].
  f_equal; by apply stored_channel_idem.
Qed.

Lemma stored_channel_opaque c : unpremultiply (premultiply c 255) 255 = c.
Proof.
  unfold unpremultiply, premultiply.
  change (255 =? 0) with false. change (255 / 2) with 127. cbv iota.
  assert (E : forall x, (x * 255 + 127) / 255 = x).
  { intros x. symmetry. apply (Z.div_unique _ _ _ 127); lia. }
  by rewrite !E.
Qed.

(** An opaque pixel is stored as it is. *)
Lemma stored_opaque p : alpha p = 255 -> stored p = p.
Proof.
  intros Ha. destruct p as [r g b a]. cbn [alpha] in Ha. subst a.
  unfold stored. cbn [red green blue alpha].
  by rewrite !stored_channel_opaque.
Qed.

(** A pixel of alpha 0 is stored as transparent black. *)
Lemma stored_clear p : alpha p = 0 -> stored p = transparent.
Proof.
  intros Ha. destruct p as [r g b a]. cbn [alpha] in Ha. subst a. reflexivity.
Qed.

(** Drawn onto a transparent pixel, a pixel is stored. *)
Lemma over_blank s : over s (alpha s) transparent = stored s.
Proof.
  unfold over. destruct (alpha s =? 0) eqn:E.
  - apply Z.eqb_eq in E. symmetry. by apply stored_clear.
  - cbv zeta. cbn [transparent red green blue alpha].
    change (premultiply 0 0) with 0. rewrite !Z.mul_0_l.
    change (div255 0) with 0. rewrite !Z.add_0_r.
    by destruct s.
Qed.

Lemma over_transparent s :
  stored s = s -> over s (alpha s) transparent = s.
Proof. intros Hc. by rewrite over_blank. Qed.

(** Drawing a canvas onto a cleared canvas of the same size copies it. *)
Lemma drawImage_copy src dst :
  wf_canvas src -> canonical (data src) -> same_size dst src ->
  width src <> 0 -> height src <> 0 ->
  (forall k, (k < npixels dst)%nat -> pixel_at (data dst) k = transparent) ->
  drawImage src dst =
    inr {| width := width dst; height := height dst; data := data src |}.
Proof.
  intros (Hw & Hh & Hlen & Hb) Hcan Hsz Hw0 Hh0 Hclear.
  unfold drawImage.
  replace (width src =? 0) with false by (symmetry; apply Z.eqb_neq; assumption).
  replace (height src =? 0) with false by (symmetry; apply Z.eqb_neq; assumption).
  simpl. do 2 f_equal.
  transitivity (bitmap_of (npixels dst) (pixel_at (data src)));
    [|apply bitmap_of_pixel_at; by rewrite (same_size_npixels _ _ Hsz)].
  apply bitmap_of_ext. intros k Hk.
  destruct Hsz as [Ew Eh].
  destruct (col_row_spec dst k ltac:(lia) Hk) as (Hc & Hr & Hidx).
  replace (col dst k <? width src) with true by (symmetry; apply Z.ltb_lt; lia).
  replace (row dst k <? height src) with true by (symmetry; apply Z.ltb_lt; lia).
  simpl. rewrite <- Ew, Hidx, Hclear by assumption.
  apply over_transparent. apply Hcan.
Qed.

Lemma putImageData_full img c :
  0 <= width c -> iw img = width c -> ih img = height c ->
  data (putImageData img c) = stored_bitmap (npixels c) (idata img).
Proof.
  intros Hw Ew Eh. simpl.
  apply bitmap_of_ext. intros k Hk.
  destruct (col_row_spec c k Hw Hk) as (Hc & Hr & Hidx).
  replace (col c k <? iw img) with true by (symmetry; apply Z.ltb_lt; lia).
  replace (row c k <? ih img) with true by (symmetry; apply Z.ltb_lt; lia).
  simpl. by rewrite Ew, Hidx.
Qed.

(** ** The simulation loop *)

Lemma clamp255_id z : is_byte z -> clamp255 z = z.
Proof.
  unfold is_byte, clamp255. intros H.
  destruct (z <? 0) eqn:E1; [apply Z.ltb_lt in E1; lia|].
  destruct (255 <? z) eqn:E2; [apply Z.ltb_lt in E2; lia|]. reflexivity.
Qed.

Lemma clamp255_is_byte z : is_byte (clamp255 z).
Proof.
  unfold is_byte, clamp255.
  destruct (z <? 0) eqn:E1; [lia|]. apply Z.ltb_ge in E1.
  destruct (255 <? z) eqn:E2; [lia|]. apply Z.ltb_ge in E2. lia.
Qed.

Lemma shift_byte v n :
  0 <= n -> is_byte v -> clamp255 (Z.rem (v + n) 255) = (v + n) mod 255.
Proof.
  unfold is_byte. intros Hn Hv.
  rewrite Z.rem_mod_nonneg by lia.
  apply clamp255_id. unfold is_byte.
  pose proof (Z.mod_pos_bound (v + n) 255 ltac:(lia)). lia.
Qed.

Lemma length_store_clamped i v d : length (store_clamped i v d) = length d.
Proof. apply length_insert. Qed.

Lemma byte_at_store_eq i v d :
  (i < length d)%nat ->
  byte_at (store_clamped i v d) i =
    match v with Some z => clamp255 z | None => 0 end.
Proof.
  intros H. unfold byte_at, store_clamped.
  rewrite list_lookup_insert_eq by assumption. reflexivity.
Qed.

Lemma byte_at_store_ne i j v d :
  i <> j -> byte_at (store_clamped i v d) j = byte_at d j.
Proof.
  intros H. unfold byte_at, store_clamped.
  rewrite list_lookup_insert_ne by assumption. reflexivity.
Qed.

Lemma masked_test (mask : list Z) i :
  match mask !! i with Some a => 0 <? a | None => false end = (0 <? byte_at mask i).
Proof. unfold byte_at. by destruct (mask !! i). Qed.

Lemma length_simulate_step mask r i : length (simulate_step mask r i) = length r.
Proof.
  unfold simulate_step. rewrite masked_test.
  destruct (0 <? _); [|reflexivity].
  cbv zeta. by rewrite !length_store_clamped.
Qed.

Lemma lookup_byte_at (d : list Z) i : (i < length d)%nat -> d !! i = Some (byte_at d i).
Proof.
  intros H. unfold byte_at.
  destruct (lookup_lt_is_Some_2 d i H) as [x ->]. reflexivity.
Qed.

(** The iteration at offset [4 * m] rewrites pixel [m] and no other. *)
Lemma simulate_step_pixel mask r m k :
  (4 * m + 3 < length r)%nat -> Forall is_byte r ->
  pixel_at (simulate_step mask r (4 * m)) k =
    if decide (k = m) then
      if 0 <? alpha (pixel_at mask m) then shifted (pixel_at r m) else pixel_at r m
    else pixel_at r k.
Proof.
  intros Hlen Hb. unfold simulate_step. rewrite masked_test.
  change (byte_at mask (4 * m + 3)) with (alpha (pixel_at mask m)).
  destruct (0 <? alpha (pixel_at mask m)); [|by case_decide; subst].
  cbv zeta. rewrite (lookup_byte_at r (4 * m)) by lia. cbn [fmap option_fmap option_map].
  set (r1 := store_clamped (4 * m) _ r).
  assert (Hl1 : length r1 = length r) by apply length_store_clamped.
  rewrite (lookup_byte_at r1 (4 * m + 1)) by lia. cbn [fmap option_fmap option_map].
  set (r2 := store_clamped (4 * m + 1) _ r1).
  assert (Hl2 : length r2 = length r) by (unfold r2; by rewrite length_store_clamped).
  unfold pixel_at. case_decide as Hkm.
  - subst k. unfold shifted; simpl.
    rewrite byte_at_store_ne by lia.
    rewrite (byte_at_store_ne (4 * m + 2) (4 * m + 1)) by lia.
    rewrite byte_at_store_eq by lia.
    rewrite (byte_at_store_ne (4 * m + 2) (4 * m + 3)) by lia.
    unfold r2. 
    rewrite (byte_at_store_ne (4 * m + 1) (4 * m)) by lia.
    rewrite byte_at_store_eq by lia.
    rewrite (byte_at_store_ne (4 * m + 1) (4 * m + 3)) by lia.
    unfold r1.
    rewrite byte_at_store_eq by lia.
    rewrite (byte_at_store_ne (4 * m) (4 * m + 1)) by lia.
    rewrite (byte_at_store_ne (4 * m) (4 * m + 3)) by lia.
    rewrite !shift_byte by (try lia; by apply byte_at_is_byte).
    reflexivity.
  - unfold r2, r1. rewrite !byte_at_store_ne by lia. reflexivity.
Qed.

Lemma store_clamped_bytes i v d :
  Forall is_byte d -> Forall is_byte (store_clamped i v d).
Proof.
  intros Hb. unfold store_clamped. apply Forall_insert; [assumption|].
  destruct v; [apply clamp255_is_byte | unfold is_byte; lia].
Qed.

Lemma simulate_step_bytes mask r i :
  Forall is_byte r -> Forall is_byte (simulate_step mask r i).
Proof.
  intros Hb. unfold simulate_step. rewrite masked_test.
  destruct (0 <? _); [|assumption].
  cbv zeta. by do 3 apply store_clamped_bytes.
Qed.

Lemma offsets_full n : offsets (4 * n) = (fun k => 4 * k)%nat <$> seq 0 n.
Proof.
  unfold offsets. do 2 f_equal.
  replace (4 * n + 3)%nat with (3 + n * 4)%nat by lia.
  rewrite Nat.div_add by lia. reflexivity.
Qed.

Lemma simulate_prefix mask r n m :
  length r = (4 * n)%nat -> Forall is_byte r -> (m <= n)%nat ->
  let r' := foldl (simulate_step mask) r ((fun k => 4 * k)%nat <$> seq 0 m) in
  length r' = length r /\ Forall is_byte r' /\
  forall k, pixel_at r' k =
    if decide (k < m)%nat then
      if 0 <? alpha (pixel_at mask k) then shifted (pixel_at r k) else pixel_at r k
    else pixel_at r k.
Proof.
  intros Hlen Hb. induction m as [|m IH]; intros Hm; cbv zeta.
  - simpl. repeat split; try done.
  - destruct IH as (IHl & IHb & IHp); [lia|].
    rewrite seq_S, fmap_app, foldl_app.
    cbn [fmap list_fmap foldl Nat.add].
    set (r' := foldl _ r _) in *.
    repeat split.
    + by rewrite length_simulate_step.
    + by apply simulate_step_bytes.
    + intros k. rewrite simulate_step_pixel by (try assumption; lia).
      rewrite !IHp.
      repeat case_decide; try lia; try reflexivity; subst; reflexivity.
Qed.

(** The loop of [runGeneration], pixel by pixel. *)
Lemma simulate_pixel mask r n k :
  length mask = (4 * n)%nat -> length r = (4 * n)%nat -> Forall is_byte r ->
  (k < n)%nat ->
  pixel_at (simulate mask r) k =
    if 0 <? alpha (pixel_at mask k) then shifted (pixel_at r k) else pixel_at r k.
Proof.
  intros Hm Hr Hb Hk. unfold simulate. rewrite Hm, offsets_full.
  destruct (simulate_prefix mask r n n Hr Hb ltac:(lia)) as (_ & _ & Hp).
  rewrite Hp. case_decide; [reflexivity | lia].
Qed.

Lemma length_simulate mask r n :
  length mask = (4 * n)%nat -> length r = (4 * n)%nat -> Forall is_byte r ->
  length (simulate mask r) = length r /\ Forall is_byte (simulate mask r).
Proof.
  intros Hm Hr Hb. unfold simulate. rewrite Hm, offsets_full.
  destruct (simulate_prefix mask r n n Hr Hb ltac:(lia)) as (Hl & Hb' & _).
  by split.
Qed.

(** ** Compositing *)

Lemma div255_nonneg x : 0 <= x -> 0 <= div255 x.
Proof. intros H. unfold div255. apply Z.div_pos; lia. Qed.

Lemma div255_product a c : is_byte a -> is_byte c -> is_byte (div255 (a * c)).
Proof.
  unfold is_byte, div255. intros Ha Hc. split.
  - apply Z.div_pos; nia.
  - assert ((a * c + 127) / 255 < 256); [|lia].
    apply Z.div_lt_upper_bound; nia.
Qed.

(** What is left of a destination alpha [da] under a source alpha [sa]. *)
Lemma remainder_bounds da sa :
  is_byte da -> is_byte sa ->
  da - sa <= div255 (da * (255 - sa)) <= da /\
  div255 (da * (255 - sa)) <= 255 - sa.
Proof.
  unfold is_byte, div255. intros Hd Hs. repeat split.
  - apply Z.div_le_lower_bound; nia.
  - assert ((da * (255 - sa) + 127) / 255 < da + 1); [|lia].
    apply Z.div_lt_upper_bound; nia.
  - assert ((da * (255 - sa) + 127) / 255 < 255 - sa + 1); [|lia].
    apply Z.div_lt_upper_bound; nia.
Qed.

Lemma over_alpha s sa d :
  is_byte sa -> is_byte (alpha d) ->
  alpha d <= alpha (over s sa d) <= 255.
Proof.
  intros Hs Hd. unfold over.
  destruct (sa =? 0) eqn:E0; [unfold is_byte in *; lia|].
  cbv zeta. cbn [alpha].
  pose proof (remainder_bounds (alpha d) sa Hd Hs). lia.
Qed.

Lemma out_alpha sa d :
  is_byte sa -> is_byte (alpha d) ->
  0 <= alpha (out sa d) <= alpha d.
Proof.
  intros Hs Hd. unfold out.
  destruct (sa =? 0) eqn:E0; [unfold is_byte in *; lia|].
  pose proof (remainder_bounds (alpha d) sa Hd Hs) as Hr.
  pose proof (div255_nonneg (alpha d * (255 - sa))) as Hn.
  cbv zeta. cbn [alpha]. unfold is_byte in *; nia.
Qed.

(** What [1 - sa] leaves of a premultiplied byte is no more than what it
    leaves of the alpha. *)
Lemma rest_bounds dc da sa :
  is_byte dc -> is_byte da -> is_byte sa ->
  0 <= div255 (premultiply dc da * (255 - sa)) <= div255 (da * (255 - sa)).
Proof.
  intros Hc Hd Hs.
  pose proof (premultiply_bound dc da Hc (proj1 Hd)) as Hq.
  unfold is_byte in *. split.
  - apply div255_nonneg. nia.
  - unfold div255. apply Z.div_le_mono; [lia|]. nia.
Qed.

Lemma over_wf s sa d : wf_rgba s -> is_byte sa -> wf_rgba d -> wf_rgba (over s sa d).
Proof.
  intros (Hr & Hg & Hb & Ha) Hs (Dr & Dg & Db & Da).
  pose proof (over_alpha s sa d Hs Da) as Hoa.
  unfold over in *.
  destruct (sa =? 0) eqn:E0; [unfold wf_rgba; tauto|].
  cbv zeta in Hoa |- *. cbn [alpha] in Hoa.
  assert (Hch : forall sc dc, is_byte sc -> is_byte dc ->
            is_byte (unpremultiply
              (premultiply sc sa + div255 (premultiply dc (alpha d) * (255 - sa)))
              (sa + div255 (alpha d * (255 - sa))))).
  { intros sc dc Hsc Hdc. apply unpremultiply_bound; [|lia].
    pose proof (premultiply_bound sc sa Hsc (proj1 Hs)).
    pose proof (rest_bounds dc (alpha d) sa Hdc Da Hs). lia. }
  unfold wf_rgba; cbn [red green blue alpha].
  refine (conj (Hch _ _ Hr Dr) (conj (Hch _ _ Hg Dg) (conj (Hch _ _ Hb Db) _))).
  unfold is_byte in *; lia.
Qed.

Lemma out_wf sa d : is_byte sa -> wf_rgba d -> wf_rgba (out sa d).
Proof.
  intros Hs (Dr & Dg & Db & Da).
  pose proof (out_alpha sa d Hs Da) as Hoa.
  unfold out in *. destruct (sa =? 0); [unfold wf_rgba; tauto|].
  cbv zeta in Hoa |- *. cbn [alpha] in Hoa.
  assert (Hch : forall dc, is_byte dc ->
            is_byte (unpremultiply (div255 (premultiply dc (alpha d) * (255 - sa)))
                       (div255 (alpha d * (255 - sa))))).
  { intros dc Hdc. unfold is_byte in Da.
    apply unpremultiply_bound; [|lia]. by apply rest_bounds. }
  unfold wf_rgba; cbn [red green blue alpha].
  refine (conj (Hch _ Dr) (conj (Hch _ Dg) (conj (Hch _ Db) _))).
  unfold is_byte in *; lia.
Qed.

Lemma composite_wf op style cov d :
  wf_rgba style -> is_byte cov -> wf_rgba d -> wf_rgba (composite op style cov d).
Proof.
  intros Hst Hc Hd. unfold composite.
  assert (is_byte (div255 (alpha style * cov))) by (apply div255_product; [apply Hst|done]).
  destruct op; [by apply over_wf | by apply out_wf].
Qed.

Lemma pixel_at_beyond d n k :
  length d = (4 * n)%nat -> (n <= k)%nat -> pixel_at d k = transparent.
Proof.
  intros Hlen Hk. unfold pixel_at, byte_at.
  rewrite !(lookup_ge_None_2 d) by lia. reflexivity.
Qed.

(** ** The invariant *)

Lemma wf_world_frame W W' :
  imgCanvas W' = imgCanvas W -> maskCanvas W' = maskCanvas W ->
  resultCanvas W' = resultCanvas W ->
  strokeStyle (ctxMask W') = strokeStyle (ctxMask W) ->
  imageLoaded (state W') = imageLoaded (state W) ->
  wf_world W -> wf_world W'.
Proof. unfold wf_world. intros -> -> -> -> ->. tauto. Qed.

Lemma canonical_blank w h : canonical (data (blank w h)).
Proof. intros k. by rewrite blank_transparent. Qed.

Lemma initial_wf img mask result p :
  valid_size img -> valid_size mask -> valid_size result ->
  wf_world (initial img mask result p).
Proof.
  intros [Hi1 Hi2] [Hm1 Hm2] [Hr1 Hr2].
  refine (conj (blank_wf _ _ Hi1 Hi2) (conj (blank_wf _ _ Hm1 Hm2)
            (conj (blank_wf _ _ Hr1 Hr2) (conj (canonical_blank _ _) (conj _ _))))).
  - unfold wf_rgba, is_byte; simpl; lia.
  - discriminate.
Qed.

Lemma resize_blank w h c :
  set_height h (set_width w c) = blank (dim_value 300 w) (dim_value 150 h).
Proof. reflexivity. Qed.

Lemma simulate_bytes mask r : Forall is_byte r -> Forall is_byte (simulate mask r).
Proof.
  unfold simulate. generalize (offsets (length mask)) as l.
  intros l; revert r; induction l as [|i l IH]; intros r Hb; simpl; [assumption|].
  apply IH. by apply simulate_step_bytes.
Qed.

Lemma drawImage_wf src dst res :
  wf_canvas src -> wf_canvas dst -> drawImage src dst = inr res ->
  wf_canvas res /\ width res = width dst /\ height res = height dst.
Proof.
  intros (_ & _ & _ & Hs) (Hw & Hh & _ & Hd). unfold drawImage.
  destruct (_ || _); [discriminate|]. intros [= <-]. split; [|done].
  apply bitmap_canvas_wf; try assumption.
  intros k. cbv zeta. destruct (_ && _); [|by apply pixel_at_wf].
  apply over_wf; by apply pixel_at_wf.
Qed.

Lemma putImageData_wf img c :
  Forall is_byte (idata img) -> wf_canvas c -> wf_canvas (putImageData img c).
Proof.
  intros Hi (Hw & Hh & _ & Hd). unfold putImageData.
  apply bitmap_canvas_wf; try assumption.
  intros k. cbv zeta. destruct (_ && _); [apply stored_wf|]; by apply pixel_at_wf.
Qed.

Lemma lineTo_style x y ctx :
  strokeStyle (lineTo x y ctx) = strokeStyle ctx /\
  globalCompositeOperation (lineTo x y ctx) = globalCompositeOperation ctx.
Proof. unfold lineTo. by destruct (_ && _). Qed.

Lemma moveTo_style x y ctx : strokeStyle (moveTo x y ctx) = strokeStyle ctx.
Proof. unfold moveTo. by destruct (_ && _). Qed.

Lemma set_lineWidth_style v ctx :
  strokeStyle (set_lineWidth v ctx) = strokeStyle ctx /\
  path (set_lineWidth v ctx) = path ctx.
Proof. unfold set_lineWidth. by destruct (0 <? v). Qed.

Lemma pixels_from_transparent s n :
  pixels_from (fun _ => transparent) s n = replicate (4 * n) 0.
Proof.
  revert s; induction n as [|n IH]; intros s; [done|].
  replace (4 * S n)%nat with (S (S (S (S (4 * n))))) by lia.
  simpl. by rewrite IH.
Qed.

Lemma clearRect_blank c :
  0 <= width c ->
  clearRect 0 0 (width c) (height c) c = blank (width c) (height c).
Proof.
  intros Hw. unfold blank. rewrite <- (pixels_from_transparent 0).
  pose proof (clearRect_data c Hw) as H. unfold clearRect in *.
  cbn [data] in H. by rewrite H.
Qed.

Lemma dim_value_Int dflt z : 0 <= z <= 2147483647 -> dim_value dflt (Int z) = z.
Proof.
  intros H. unfold dim_value, to_unsigned_long.
  rewrite Z.mod_small by lia.
  destruct (z <=? 2147483647) eqn:E; [done|]. apply Z.leb_gt in E. lia.
Qed.

Lemma dim_value_Dbl dflt f :
  0 <= float_trunc f <= 2147483647 -> dim_value dflt (Dbl f) = float_trunc f.
Proof.
  intros H. unfold dim_value, to_unsigned_long.
  rewrite Z.mod_small by lia.
  destruct (float_trunc f <=? 2147483647) eqn:E; [done|]. apply Z.leb_gt in E. lia.
Qed.

(** ** The [try] block of [runGeneration] *)

(** With an image of non-zero size loaded, the block runs to its end and
    leaves in the result canvas what the bitmap keeps of the simulated
    bytes. *)
Lemma try_block_completes W :
  wf_world W -> imageLoaded (state W) = true ->
  width (imgCanvas W) <> 0 -> height (imgCanvas W) <> 0 ->
  exists W',
    try_block W = (W', None) /\
    data (resultCanvas W') =
      stored_bitmap (npixels (imgCanvas W))
        (simulate (data (maskCanvas W)) (data (imgCanvas W))) /\
    same_size (resultCanvas W') (resultCanvas W) /\
    imgCanvas W' = imgCanvas W /\ maskCanvas W' = maskCanvas W /\
    ctxMask W' = ctxMask W /\ suspended W' = suspended W /\
    state W' = set_hasResult true (state W) /\
    page W' = set_maskCanvasOpacity "0" (set_resultCanvasDisplay "block" (page W)).
Proof.
  intros (Hi & Hm & Hr & Hcan & _ & Hsz) Hl Hw0 Hh0.
  destruct (Hsz Hl) as [[Emw Emh] [Erw Erh]].
  destruct Hr as (Hrw & Hrh & Hrl & Hrb).
  unfold try_block. cbv zeta. cbn [resultCanvas imgCanvas set_resultCanvas].
  set (cleared := clearRect 0 0 (width (resultCanvas W)) (height (resultCanvas W))
                    (resultCanvas W)).
  rewrite (drawImage_copy (imgCanvas W) cleared);
    [|assumption|assumption|by split|assumption|assumption
     |intros k Hk; by apply clearRect_transparent].
  cbn [maskCanvas resultCanvas set_resultCanvas]. unfold getImageData.
  cbn [width height data cleared clearRect].
  replace (width (maskCanvas W) =? 0) with false by (symmetry; apply Z.eqb_neq; lia).
  replace (height (maskCanvas W) =? 0) with false by (symmetry; apply Z.eqb_neq; lia).
  replace (width (resultCanvas W) =? 0) with false by (symmetry; apply Z.eqb_neq; lia).
  replace (height (resultCanvas W) =? 0) with false by (symmetry; apply Z.eqb_neq; lia).
  cbn [orb iw ih idata].
  eexists. split; [reflexivity|].
  cbn [resultCanvas imgCanvas maskCanvas ctxMask suspended state page
       set_resultCanvas set_page set_state].
  split; [|by repeat split].
  rewrite putImageData_full by (cbn [width height iw ih]; assumption || reflexivity).
  f_equal. unfold npixels; cbn [width height]. by rewrite Erw, Erh.
Qed.

(** The block stops at [drawImage] when the image canvas has a zero
    dimension: the result canvas, of the same size, holds no pixel. *)
Lemma try_block_throws W :
  wf_world W -> imageLoaded (state W) = true ->
  width (imgCanvas W) = 0 \/ height (imgCanvas W) = 0 ->
  exists W',
    try_block W = (W', Some InvalidStateError) /\
    data (resultCanvas W') = data (resultCanvas W) /\
    same_size (resultCanvas W') (resultCanvas W) /\
    imgCanvas W' = imgCanvas W /\ maskCanvas W' = maskCanvas W /\
    ctxMask W' = ctxMask W /\ suspended W' = suspended W /\
    state W' = state W /\ page W' = page W.
Proof.
  intros (Hi & Hm & Hr & Hcan & _ & Hsz) Hl H0.
  destruct (Hsz Hl) as [_ [Erw Erh]].
  destruct Hr as (Hrw & Hrh & Hrl & Hrb).
  unfold try_block. cbv zeta. cbn [resultCanvas imgCanvas set_resultCanvas].
  unfold drawImage.
  replace ((width (imgCanvas W) =? 0) || (height (imgCanvas W) =? 0)) with true.
  2:{ symmetry. apply orb_true_iff. destruct H0 as [E|E]; rewrite E; auto. }
  eexists. split; [reflexivity|].
  cbn [resultCanvas imgCanvas maskCanvas ctxMask suspended state page set_resultCanvas].
  split; [|by repeat split].
  assert (Hn : npixels (resultCanvas W) = 0%nat).
  { unfold npixels. rewrite Erw, Erh. destruct H0 as [-> | ->]; simpl; lia. }
  rewrite clearRect_data by assumption. rewrite Hn. rewrite Hn in Hrl.
  destruct (data (resultCanvas W)); [reflexivity | discriminate].
Qed.


Lemma try_block_cases W :
  wf_world W -> imageLoaded (state W) = true ->
  (width (imgCanvas W) <> 0 /\ height (imgCanvas W) <> 0 /\ snd (try_block W) = None) \/
  ((width (imgCanvas W) = 0 \/ height (imgCanvas W) = 0) /\
   snd (try_block W) = Some InvalidStateError).
Proof.
  intros Hwf Hl.
  destruct (Z.eq_dec (width (imgCanvas W)) 0) as [Ew|Ew].
  { right. split; [by left|].
    destruct (try_block_throws W Hwf Hl) as (W' & -> & _); [by left|reflexivity]. }
  destruct (Z.eq_dec (height (imgCanvas W)) 0) as [Eh|Eh].
  { right. split; [by right|].
    destruct (try_block_throws W Hwf Hl) as (W' & -> & _); [by right|reflexivity]. }
  left. destruct (try_block_completes W Hwf Hl Ew Eh) as (W' & -> & _). done.
Qed.

Lemma wf_world_set_result W c :
  wf_world W -> wf_canvas c -> same_size c (resultCanvas W) ->
  wf_world (set_resultCanvas c W).
Proof.
  intros (Hi & Hm & Hr & Hcan & Hst & Hsz) Hc [Ew Eh].
  refine (conj Hi (conj Hm (conj Hc (conj Hcan (conj Hst _))))).
  intros Hl. destruct (Hsz Hl) as [Hms [Hrw Hrh]]. split; [assumption|].
  split; cbn [resultCanvas set_resultCanvas imgCanvas]; congruence.
Qed.

Lemma try_block_wf W : wf_world W -> wf_world (fst (try_block W)).
Proof.
  intros Hwf. unfold try_block. cbv zeta.
  set (W1 := set_resultCanvas _ W).
  assert (H1 : wf_world W1).
  { apply wf_world_set_result; [assumption| |by split].
    apply clearRect_wf, Hwf. }
  destruct (drawImage (imgCanvas W1) (resultCanvas W1)) as [err|res] eqn:Ed;
    [assumption|].
  destruct (drawImage_wf _ _ _ (proj1 H1) (proj1 (proj2 (proj2 H1))) Ed)
    as (Hres & Ew & Eh).
  set (W2 := set_resultCanvas res W1).
  assert (H2 : wf_world W2) by (apply wf_world_set_result; [assumption..|by split]).
  destruct (getImageData (maskCanvas W2)) as [err|imgData] eqn:Em; [assumption|].
  destruct (getImageData (resultCanvas W2)) as [err|resultData] eqn:Er; [assumption|].
  cbn [fst].
  eapply (wf_world_frame (set_resultCanvas _ W2)); try reflexivity.
  apply wf_world_set_result; [assumption| |by split].
  apply putImageData_wf; [|apply H2]. cbn [idata].
  apply simulate_bytes.
  unfold getImageData in Er. destruct (_ || _); [discriminate|].
  injection Er as <-. cbn [idata]. apply H2.
Qed.

Lemma runGeneration_resume_wf W :
  wf_world W -> wf_world (fst (runGeneration_resume W)).
Proof.
  intros Hwf. unfold runGeneration_resume.
  pose proof (try_block_wf W Hwf) as Ht.
  destruct (try_block W) as [W1 [err|]]; cbn [fst] in *;
    eapply (wf_world_frame W1); try reflexivity; assumption.
Qed.

Lemma runGeneration_start_wf W :
  wf_world W -> wf_world (fst (runGeneration_start W)).
Proof.
  intros Hwf. unfold runGeneration_start.
  destruct (negb _); [|destruct (String.eqb _ _)]; cbn [fst];
    eapply (wf_world_frame W); try reflexivity; assumption.
Qed.

Lemma clearMask_wf W : wf_world W -> wf_world (clearMask W).
Proof.
  intros (Hi & Hm & Hr & Hcan & Hst & Hsz).
  refine (conj Hi (conj _ (conj Hr (conj Hcan (conj Hst Hsz))))).
  by apply clearRect_wf.
Qed.

Lemma exportImage_wf W : wf_world W -> wf_world (exportImage W).
Proof.
  intros Hwf. unfold exportImage. destruct (negb _); [assumption|].
  eapply (wf_world_frame W); try reflexivity; assumption.
Qed.

(** ** [runGeneration], phase by phase *)

Lemma runGeneration_accepted W :
  imageLoaded (state W) = true -> promptValue (page W) <> ""%string ->
  runGeneration W =
    runGeneration_resume
      (set_suspended (S (suspended W))
         (set_page (set_loaderDisplay "flex" (page W)) W)).
Proof.
  intros Hl Hp. unfold runGeneration, runGeneration_start. rewrite Hl.
  cbn [negb]. apply String.eqb_neq in Hp. by rewrite Hp.
Qed.

Lemma resume_not_rejected W msg : snd (runGeneration_resume W) <> Rejected msg.
Proof.
  unfold runGeneration_resume. destruct (try_block W) as [W1 [err|]]; discriminate.
Qed.

Lemma runGeneration_not_rejected W W' o :
  runGeneration W = (W', o) -> (forall msg, o <> Rejected msg) ->
  imageLoaded (state W) = true /\ promptValue (page W) <> ""%string.
Proof.
  unfold runGeneration, runGeneration_start. intros H Ho.
  destruct (imageLoaded (state W)); cbn [negb] in H.
  - split; [reflexivity|]. intros Hp. rewrite Hp in H. cbn in H.
    injection H as _ <-. by eapply Ho.
  - injection H as _ <-. exfalso. by eapply Ho.
Qed.

Lemma resume_completed W W' :
  wf_world W -> imageLoaded (state W) = true ->
  runGeneration_resume W = (W', Completed) ->
  width (imgCanvas W) <> 0 /\ height (imgCanvas W) <> 0 /\
  data (resultCanvas W') =
    stored_bitmap (npixels (imgCanvas W))
      (simulate (data (maskCanvas W)) (data (imgCanvas W))) /\
  same_size (resultCanvas W') (resultCanvas W) /\
  imgCanvas W' = imgCanvas W /\ maskCanvas W' = maskCanvas W /\
  ctxMask W' = ctxMask W /\
  state W' = set_hasResult true (state W) /\
  page W' =
    set_loaderDisplay "none"
      (set_maskCanvasOpacity "0" (set_resultCanvasDisplay "block" (page W))).
Proof.
  intros Hwf Hl H. unfold runGeneration_resume in H.
  destruct (Z.eq_dec (width (imgCanvas W)) 0) as [Ew|Ew].
  { destruct (try_block_throws W Hwf Hl) as (W1 & E & _); [by left|].
    rewrite E in H. discriminate. }
  destruct (Z.eq_dec (height (imgCanvas W)) 0) as [Eh|Eh].
  { destruct (try_block_throws W Hwf Hl) as (W1 & E & _); [by right|].
    rewrite E in H. discriminate. }
  destruct (try_block_completes W Hwf Hl Ew Eh)
    as (W1 & E & Hd & Hs & Hi & Hm & Hc & _ & Hst & Hp).
  rewrite E in H. injection H as <-.
  cbn [resultCanvas imgCanvas maskCanvas ctxMask state page set_suspended set_page].
  rewrite Hp. done.
Qed.

Lemma resume_failed W W' err :
  wf_world W -> imageLoaded (state W) = true ->
  runGeneration_resume W = (W', Failed err) ->
  data (resultCanvas W') = data (resultCanvas W) /\
  same_size (resultCanvas W') (resultCanvas W) /\
  imgCanvas W' = imgCanvas W /\ maskCanvas W' = maskCanvas W /\
  ctxMask W' = ctxMask W /\
  state W' = state W /\
  page W' =
    set_loaderDisplay "none"
      (alert "AI Generation failed. Check console." (console_error err (page W))).
Proof.
  intros Hwf Hl H. unfold runGeneration_resume in H.
  destruct (try_block_cases W Hwf Hl) as [(Ew & Eh & _)|[H0 _]].
  { destruct (try_block_completes W Hwf Hl Ew Eh) as (W1 & E & _).
    rewrite E in H. discriminate. }
  destruct (try_block_throws W Hwf Hl H0)
    as (W1 & E & Hd & Hs & Hi & Hm & Hc & _ & Hst & Hp).
  rewrite E in H. injection H as <- <-.
  cbn [resultCanvas imgCanvas maskCanvas ctxMask state page set_suspended set_page].
  rewrite Hp. done.
Qed.

(** Nothing in [runGeneration] writes the image canvas, the mask canvas
    or its context, whatever the outcome. *)
Lemma try_block_frame W :
  imgCanvas (fst (try_block W)) = imgCanvas W /\
  maskCanvas (fst (try_block W)) = maskCanvas W /\
  ctxMask (fst (try_block W)) = ctxMask W.
Proof.
  unfold try_block. cbv zeta.
  destruct (drawImage _ _); [done|].
  destruct (getImageData _); [done|].
  destruct (getImageData _); done.
Qed.

Lemma start_wf_accepted W :
  wf_world W ->
  wf_world (set_suspended (S (suspended W))
              (set_page (set_loaderDisplay "flex" (page W)) W)).
Proof. intros H. eapply (wf_world_frame W); try reflexivity; assumption. Qed.

Lemma try_block_session W :
  tool (state (fst (try_block W))) = tool (state W) /\
  brushSize (state (fst (try_block W))) = brushSize (state W) /\
  isDrawing (state (fst (try_block W))) = isDrawing (state W) /\
  imageLoaded (state (fst (try_block W))) = imageLoaded (state W).
Proof.
  unfold try_block. cbv zeta.
  destruct (drawImage _ _); [done|].
  destruct (getImageData _); [done|].
  destruct (getImageData _); done.
Qed.

Lemma try_block_result W :
  match snd (try_block W) with
  | None => hasResult (state (fst (try_block W))) = true
  | Some _ => hasResult (state (fst (try_block W))) = hasResult (state W)
  end.
Proof.
  unfold try_block. cbv zeta.
  destruct (drawImage _ _); [done|].
  destruct (getImageData _); [done|].
  destruct (getImageData _); done.
Qed.

Lemma try_block_page W :
  match snd (try_block W) with
  | None =>
      page (fst (try_block W)) =
        set_maskCanvasOpacity "0" (set_resultCanvasDisplay "block" (page W))
  | Some _ => page (fst (try_block W)) = page W
  end.
Proof.
  unfold try_block. cbv zeta.
  destruct (drawImage _ _); [done|].
  destruct (getImageData _); [done|].
  destruct (getImageData _); done.
Qed.

Lemma resume_frame W :
  let W' := fst (runGeneration_resume W) in
  imgCanvas W' = imgCanvas W /\ maskCanvas W' = maskCanvas W /\
  ctxMask W' = ctxMask W /\
  tool (state W') = tool (state W) /\ brushSize (state W') = brushSize (state W) /\
  isDrawing (state W') = isDrawing (state W) /\
  imageLoaded (state W') = imageLoaded (state W) /\
  (snd (runGeneration_resume W) = Completed ->
   hasResult (state W') = true /\
   page W' =
     set_loaderDisplay "none"
       (set_maskCanvasOpacity "0" (set_resultCanvasDisplay "block" (page W)))).
Proof.
  cbv zeta. unfold runGeneration_resume.
  pose proof (try_block_frame W) as (Hi & Hm & Hc).
  pose proof (try_block_session W) as (Ht & Hb & Hd & Hl).
  pose proof (try_block_result W) as Hr.
  pose proof (try_block_page W) as Hp.
  destruct (try_block W) as [W1 [err|]]; cbn [fst snd] in *;
    cbn [imgCanvas maskCanvas ctxMask state page set_suspended set_page];
    repeat split; try assumption; try discriminate.
  by rewrite Hp.
Qed.

Lemma path_set_lineWidth v ctx : path (set_lineWidth v ctx) = path ctx.
Proof. apply set_lineWidth_style. Qed.

(** ** Handlers that draw, on any host

    From here on the rasteriser and the image filter are arbitrary. *)

Section WithHost.

Variable raster : Z -> LineCap -> LineJoin -> list subpath -> Z -> Z -> Z.
Variable resample : Image -> number -> number -> Z -> Z -> rgba.

Lemma coverage_is_byte ctx c k : is_byte (coverage raster ctx c k).
Proof. apply clamp255_is_byte. Qed.

Lemma stroke_size ctx c :
  width (stroke raster ctx c) = width c /\ height (stroke raster ctx c) = height c.
Proof. unfold stroke. by destruct (trace_path _). Qed.

Lemma stroke_nothing ctx c : trace_path (path ctx) = [] -> stroke raster ctx c = c.
Proof. unfold stroke. by intros ->. Qed.

Lemma stroke_pixel ctx c k :
  trace_path (path ctx) <> [] -> (k < npixels c)%nat ->
  pixel_at (data (stroke raster ctx c)) k =
    composite (globalCompositeOperation ctx) (strokeStyle ctx)
      (coverage raster ctx c k) (pixel_at (data c) k).
Proof.
  intros Hne Hk. unfold stroke. destruct (trace_path _); [done|].
  simpl. by rewrite pixel_at_bitmap_of.
Qed.

Lemma stroke_wf ctx c :
  wf_rgba (strokeStyle ctx) -> wf_canvas c -> wf_canvas (stroke raster ctx c).
Proof.
  intros Hst Hc. unfold stroke. destruct (trace_path _) eqn:E; [assumption|].
  destruct Hc as (Hw & Hh & _ & Hd).
  apply bitmap_canvas_wf; try assumption.
  intros k. apply composite_wf; [assumption | apply clamp255_is_byte | by apply pixel_at_wf].
Qed.

(** The alpha of a pixel after a stroke, against its alpha before. *)
Lemma stroke_alpha ctx c k :
  wf_rgba (strokeStyle ctx) -> wf_canvas c ->
  match globalCompositeOperation ctx with
  | source_over => alpha_at c k <= alpha_at (stroke raster ctx c) k
  | destination_out => alpha_at (stroke raster ctx c) k <= alpha_at c k
  end.
Proof.
  intros Hst Hc. unfold alpha_at.
  destruct (decide (trace_path (path ctx) = [])) as [E|E].
  { rewrite stroke_nothing by assumption. destruct (globalCompositeOperation ctx); lia. }
  destruct (decide (k < npixels c)%nat) as [Hk|Hk].
  - rewrite stroke_pixel by assumption.
    destruct Hc as (_ & _ & _ & Hd).
    pose proof (pixel_at_wf (data c) k Hd) as (_ & _ & _ & Ha).
    assert (Hsa : is_byte (div255 (alpha (strokeStyle ctx) * coverage raster ctx c k))).
    { apply div255_product; [apply Hst | apply coverage_is_byte]. }
    unfold composite. destruct (globalCompositeOperation ctx).
    + apply over_alpha; assumption.
    + apply out_alpha; assumption.
  - pose proof (stroke_wf ctx c Hst Hc) as (_ & _ & Hl' & _).
    destruct (stroke_size ctx c) as [Ew Eh].
    destruct Hc as (_ & _ & Hl & _).
    rewrite (pixel_at_beyond (data c) (npixels c)) by (assumption || lia).
    rewrite (pixel_at_beyond (data (stroke raster ctx c)) (npixels c)).
    + destruct (globalCompositeOperation ctx); lia.
    + rewrite Hl'. unfold npixels. by rewrite Ew, Eh.
    + lia.
Qed.

Lemma handleImageUpload_eq img W :
  let w := dim_value 300 (fst (final_size img)) in
  let h := dim_value 150 (snd (final_size img)) in
  handleImageUpload resample img W =
    {| state := set_hasResult false (set_imageLoaded true (state W));
       imgCanvas :=
         drawImage_scaled resample img (fst (final_size img)) (snd (final_size img))
           (blank w h);
       maskCanvas := blank w h;
       resultCanvas := blank w h;
       ctxMask := default_context;
       page :=
         set_resultCanvasDisplay "none"
           (set_emptyStateDisplay "none"
              (set_wrapperSize (fst (final_size img)) (snd (final_size img)) (page W)));
       suspended := suspended W |}.
Proof.
  unfold handleImageUpload, final_size.
  destruct (maxWidth <? img_width img); cbv zeta; cbn [fst snd];
    unfold clearMask, resizeCanvases; cbn -[dim_value clearRect blank drawImage_scaled];
    rewrite !resize_blank;
    unfold set_maskCanvas; cbn -[dim_value clearRect blank drawImage_scaled];
    (rewrite (clearRect_blank (blank _ _)) by (apply dim_value_nonneg; lia));
    reflexivity.
Qed.

Lemma clamp_rgba_wf p : wf_rgba (clamp_rgba p).
Proof. repeat split; apply clamp255_is_byte. Qed.

Lemma drawImage_scaled_blank img dw dh w h :
  0 <= w -> 0 <= h ->
  let c := drawImage_scaled resample img dw dh (blank w h) in
  wf_canvas c /\ canonical (data c) /\ width c = w /\ height c = h.
Proof.
  intros Hw Hh. cbv zeta. split; [|split; [|split; reflexivity]].
  - unfold drawImage_scaled. apply bitmap_canvas_wf; try assumption.
    intros k. cbv zeta. rewrite blank_transparent.
    apply over_wf; first [apply clamp_rgba_wf | apply transparent_wf].
  - intros k. destruct (decide (k < npixels (blank w h))%nat) as [Hk|Hk].
    + unfold drawImage_scaled; cbn [data]. rewrite pixel_at_bitmap_of by assumption.
      cbv zeta. rewrite blank_transparent.
      rewrite over_blank. apply stored_idem, clamp_rgba_wf.
    + rewrite (pixel_at_beyond _ (npixels (blank w h))); [done| |lia].
      apply length_bitmap_of.
Qed.

Lemma handleImageUpload_wf img W : wf_world (handleImageUpload resample img W).
Proof.
  rewrite handleImageUpload_eq. cbv zeta.
  set (w := dim_value 300 _). set (h := dim_value 150 _).
  assert (Hw : 0 <= w) by (apply dim_value_nonneg; lia).
  assert (Hh : 0 <= h) by (apply dim_value_nonneg; lia).
  destruct (drawImage_scaled_blank img (fst (final_size img)) (snd (final_size img))
              w h Hw Hh) as (Hc & Hcan & Ew & Eh).
  unfold wf_world; cbn [imgCanvas maskCanvas resultCanvas ctxMask state].
  refine (conj Hc (conj (blank_wf w h Hw Hh) (conj (blank_wf w h Hw Hh)
            (conj Hcan (conj _ _))))).
  - unfold wf_rgba, is_byte; simpl; lia.
  - intros _. unfold same_size. by rewrite Ew, Eh.
Qed.

(** What [paint] does to the mask canvas: one [stroke], with the
    operator and colour of the active tool. *)
Lemma paint_mask e W :
  exists ctx,
    maskCanvas (paint raster e W) = stroke raster ctx (maskCanvas W) /\
    globalCompositeOperation ctx =
      (match tool (state W) with brush => source_over | eraser => destination_out end) /\
    wf_rgba (strokeStyle ctx) /\
    strokeStyle (ctxMask (paint raster e W)) = strokeStyle ctx.
Proof.
  unfold paint. cbv zeta.
  cbn [maskCanvas ctxMask set_ctxMask set_maskCanvas].
  eexists. split; [reflexivity|].
  rewrite moveTo_style. cbn [beginPath with_path strokeStyle].
  rewrite (proj1 (lineTo_style _ _ _)), (proj2 (lineTo_style _ _ _)).
  destruct (tool (state W)); cbn; unfold wf_rgba, is_byte; cbn;
    (split; [reflexivity|split; [lia|reflexivity]]).
Qed.

Lemma paint_frame e W :
  imgCanvas (paint raster e W) = imgCanvas W /\
  resultCanvas (paint raster e W) = resultCanvas W /\
  state (paint raster e W) = state W /\
  page (paint raster e W) = page W /\
  width (maskCanvas (paint raster e W)) = width (maskCanvas W) /\
  height (maskCanvas (paint raster e W)) = height (maskCanvas W).
Proof.
  unfold paint. cbv zeta. cbn [imgCanvas resultCanvas state page maskCanvas
    set_ctxMask set_maskCanvas].
  repeat split; apply stroke_size.
Qed.

Lemma paint_wf e W : wf_world W -> wf_world (paint raster e W).
Proof.
  intros (Hi & Hm & Hr & Hcan & Hst & Hsz).
  destruct (paint_mask e W) as (ctx & Em & _ & Hctx & Est).
  destruct (paint_frame e W) as (Ei & Er & Es & _ & Ew & Eh).
  unfold wf_world. rewrite Ei, Er, Es, Est.
  refine (conj Hi (conj _ (conj Hr (conj Hcan (conj Hctx _))))).
  - rewrite Em. by apply stroke_wf.
  - intros Hl. destruct (Hsz Hl) as [[Hw1 Hh1] Hrs]. split; [|assumption].
    unfold same_size. by rewrite Ew, Eh.
Qed.

Lemma handle_wf ev W : wf_world W -> wf_world (handle raster resample ev W).
Proof.
  intros Hwf. destruct ev; cbn [handle].
  - eapply (wf_world_frame W); try reflexivity; assumption.
  - eapply (wf_world_frame W); try reflexivity; assumption.
  - apply handleImageUpload_wf.
  - unfold startDraw. destruct (negb _); [assumption|].
    apply paint_wf. eapply (wf_world_frame W); try reflexivity; assumption.
  - unfold draw. destruct (negb _); [assumption|]. by apply paint_wf.
  - eapply (wf_world_frame W); try reflexivity; assumption.
  - by apply clearMask_wf.
  - by apply runGeneration_start_wf.
  - destruct (suspended W); [assumption|]. by apply runGeneration_resume_wf.
  - by apply exportImage_wf.
  - eapply (wf_world_frame W); try reflexivity; assumption.
  - eapply (wf_world_frame W); try reflexivity; assumption.
Qed.

Lemma run_wf evs W : wf_world W -> wf_world (run raster resample evs W).
Proof.
  unfold run. revert W. induction evs as [|ev evs IH]; intros W Hwf; simpl.
  - assumption.
  - apply IH. by apply handle_wf.
Qed.

(** Every world the page can get into is well formed. *)
Lemma reachable_wf W : reachable raster resample W -> wf_world W.
Proof.
  intros (img & mask & result & p & evs & Hi & Hm & Hr & ->).
  apply run_wf. by apply initial_wf.
Qed.

Lemma reachable_step ev W :
  reachable raster resample W -> reachable raster resample (handle raster resample ev W).
Proof.
  intros (img & mask & result & p & evs & Hi & Hm & Hr & ->).
  exists img, mask, result, p, (evs ++ [ev]). repeat split; try apply Hi || apply Hm || apply Hr.
  unfold run. by rewrite foldl_app.
Qed.

(** A stroke that starts on an empty path traces nothing: [lineTo] only
    places the first point. *)
Lemma paint_first_point e W :
  path (ctxMask W) = [] -> maskCanvas (paint raster e W) = maskCanvas W.
Proof.
  intros Hp. unfold paint. cbv zeta. cbn [maskCanvas set_ctxMask set_maskCanvas].
  apply stroke_nothing. unfold lineTo.
  destruct (_ && _); cbn [path with_path set_strokeStyle set_globalCompositeOperation
    set_lineJoin set_lineCap];
    destruct (tool (state W));
    cbn [path with_path set_strokeStyle set_globalCompositeOperation
      set_lineJoin set_lineCap];
    rewrite path_set_lineWidth, Hp; reflexivity.
Qed.

Lemma paint_session e W : state (paint raster e W) = state W.
Proof. apply paint_frame. Qed.

Lemma handle_idle ev W : idle_path W -> idle_path (handle raster resample ev W).
Proof.
  unfold idle_path. intros H. destruct ev; cbn [handle]; try exact H.
  - rewrite handleImageUpload_eq. reflexivity.
  - unfold startDraw. destruct (negb _); [exact H|].
    rewrite paint_session. discriminate.
  - unfold draw. destruct (negb (isDrawing (state W))) eqn:E; [exact H|].
    rewrite paint_session. apply negb_false_iff in E. rewrite E. discriminate.
  - reflexivity.
  - unfold runGeneration_start.
    destruct (negb _); [|destruct (String.eqb _ _)]; exact H.
  - destruct (suspended W); [exact H|].
    destruct (resume_frame W) as (_ & _ & -> & _ & _ & -> & _). exact H.
  - unfold exportImage. destruct (negb _); exact H.
Qed.

Lemma reachable_idle W : reachable raster resample W -> idle_path W.
Proof.
  intros (img & mask & result & p & evs & _ & _ & _ & ->). unfold run.
  assert (H0 : idle_path (initial img mask result p)) by (intros _; reflexivity).
  revert H0. generalize (initial img mask result p) as W.
  induction evs as [|ev evs IH]; intros W HW; simpl; [exact HW|].
  apply IH. by apply handle_idle.
Qed.

(** C1, as the code has it.  After a generation that completes, the
    result canvas has the size of the image canvas.  Pixel by pixel, it
    holds the image pixel where the mask alpha is zero; where the mask
    alpha is not zero, the loop gives the image pixel
    R' = (R + 50) mod 255, G' = (G + 20) mod 255, B' = 200 and its own
    alpha, and [putImageData] leaves in the canvas what the bitmap keeps
    of these bytes ([stored]): the alpha always, the three colour bytes
    as they are when the image pixel is opaque, and transparent black
    when its alpha is 0. *)
Theorem generation_result W W' :
  reachable raster resample W ->
  runGeneration W = (W', Completed) ->
  same_size (resultCanvas W') (imgCanvas W) /\
  length (data (resultCanvas W')) = length (data (imgCanvas W)) /\
  forall k : nat, (k < npixels (imgCanvas W))%nat ->
    pixel_at (data (resultCanvas W')) k =
      (if alpha_at (maskCanvas W) k =? 0 then pixel_at (data (imgCanvas W)) k
       else stored (shifted (pixel_at (data (imgCanvas W)) k))) /\
    alpha_at (resultCanvas W') k = alpha_at (imgCanvas W) k /\
    (alpha_at (imgCanvas W) k = 255 ->
     pixel_at (data (resultCanvas W')) k =
       if alpha_at (maskCanvas W) k =? 0 then pixel_at (data (imgCanvas W)) k
       else shifted (pixel_at (data (imgCanvas W)) k)) /\
    (alpha_at (imgCanvas W) k = 0 ->
     pixel_at (data (resultCanvas W')) k = transparent).
Proof.
  intros Hreach Hrun.
  destruct (runGeneration_not_rejected W W' Completed Hrun) as [Hl Hp];
    [discriminate|].
  rewrite runGeneration_accepted in Hrun by assumption.
  pose proof (start_wf_accepted W (reachable_wf W Hreach)) as Hwf.
  apply resume_completed in Hrun; [|assumption|assumption].
  cbn [imgCanvas maskCanvas resultCanvas state page set_suspended set_page] in Hrun.
  destruct Hrun as (_ & _ & Hd & [Ew Eh] & _).
  destruct (reachable_wf W Hreach) as (Hi & Hm & _ & Hcan & _ & Hsz).
  destruct (Hsz Hl) as [[Emw Emh] [Erw Erh]].
  destruct Hi as (_ & _ & Hil & Hib). destruct Hm as (_ & _ & Hml & Hmb).
  assert (Hn : npixels (maskCanvas W) = npixels (imgCanvas W))
    by (unfold npixels; by rewrite Emw, Emh).
  rewrite Hn in Hml.
  split; [split; congruence|]. split.
  - rewrite Hd. unfold stored_bitmap. by rewrite length_bitmap_of.
  - intros k Hk.
    assert (Hpx : pixel_at (data (resultCanvas W')) k =
                  if alpha_at (maskCanvas W) k =? 0 then pixel_at (data (imgCanvas W)) k
                  else stored (shifted (pixel_at (data (imgCanvas W)) k))).
    { rewrite Hd. unfold stored_bitmap. rewrite pixel_at_bitmap_of by assumption.
      rewrite (simulate_pixel _ _ (npixels (imgCanvas W))) by assumption.
      unfold alpha_at.
      pose proof (pixel_at_wf (data (maskCanvas W)) k Hmb) as (_ & _ & _ & [Ha _]).
      destruct (alpha (pixel_at (data (maskCanvas W)) k) =? 0) eqn:E.
      + apply Z.eqb_eq in E. rewrite E. apply Hcan.
      + apply Z.eqb_neq in E.
        replace (0 <? alpha (pixel_at (data (maskCanvas W)) k)) with true
          by (symmetry; apply Z.ltb_lt; lia).
        reflexivity. }
    split; [exact Hpx|].
    unfold alpha_at in Hpx |- *. rewrite Hpx.
    destruct (alpha (pixel_at (data (maskCanvas W)) k) =? 0).
    + split; [reflexivity|]. split; [reflexivity|].
      intros E. rewrite <- (Hcan k). by apply stored_clear.
    + split; [reflexivity|]. split; intros E.
      * by apply stored_opaque.
      * by apply stored_clear.
Qed.

(** C2.  A paint operation with the eraser leaves no pixel of the mask
    with a larger alpha than before; with the brush it leaves no pixel,
    covered by the stroke or not, with a smaller alpha than before. *)
Theorem paint_alpha_monotone e W (k : nat) :
  reachable raster resample W ->
  (tool (state W) = eraser ->
   alpha_at (maskCanvas (paint raster e W)) k <= alpha_at (maskCanvas W) k) /\
  (tool (state W) = brush ->
   alpha_at (maskCanvas W) k <= alpha_at (maskCanvas (paint raster e W)) k).
Proof.
  intros Hreach.
  destruct (reachable_wf W Hreach) as (_ & Hm & _).
  destruct (paint_mask e W) as (ctx & -> & Hop & Hst & _).
  pose proof (stroke_alpha ctx (maskCanvas W) k Hst Hm) as H.
  rewrite Hop in H.
  split; intros Ht; rewrite Ht in H; exact H.
Qed.

(** C3.  With no image loaded, [runGeneration] only shows its message and
    returns: the call is rejected, and the world is the one before but
    for the alert, so the mask and result canvases are unchanged. *)
Theorem generate_without_image W :
  imageLoaded (state W) = false ->
  runGeneration W =
    (set_page (alert "Please upload an image first." (page W)) W,
     Rejected "Please upload an image first.") /\
  maskCanvas (fst (runGeneration W)) = maskCanvas W /\
  resultCanvas (fst (runGeneration W)) = resultCanvas W.
Proof.
  intros Hl. unfold runGeneration, runGeneration_start. rewrite Hl. by cbn.
Qed.

(** C4.  With an image loaded and an empty prompt, [runGeneration] only
    shows its message and returns: the canvases, the mask context and
    the session flags are those before the call. *)
Theorem generate_with_empty_prompt W :
  imageLoaded (state W) = true -> promptValue (page W) = ""%string ->
  runGeneration W =
    (set_page (alert "Please enter a prompt describing the change." (page W)) W,
     Rejected "Please enter a prompt describing the change.") /\
  imgCanvas (fst (runGeneration W)) = imgCanvas W /\
  maskCanvas (fst (runGeneration W)) = maskCanvas W /\
  resultCanvas (fst (runGeneration W)) = resultCanvas W /\
  ctxMask (fst (runGeneration W)) = ctxMask W /\
  state (fst (runGeneration W)) = state W.
Proof.
  intros Hl Hp. unfold runGeneration, runGeneration_start. rewrite Hl, Hp. by cbn.
Qed.

(** C5.  After an upload, whatever the world before: [hasResult] is
    false, the mask canvas has the size of the image canvas, and every
    byte of the mask bitmap is zero, so every pixel is transparent. *)
Theorem upload_resets img W :
  let W' := handleImageUpload resample img W in
  hasResult (state W') = false /\
  same_size (maskCanvas W') (imgCanvas W') /\
  data (maskCanvas W') = replicate (4 * npixels (maskCanvas W')) 0 /\
  forall k : nat, pixel_at (data (maskCanvas W')) k = transparent.
Proof.
  cbv zeta. rewrite handleImageUpload_eq. cbv zeta.
  cbn [state maskCanvas imgCanvas hasResult set_hasResult].
  repeat split. intros k. apply blank_transparent.
Qed.

(** C6, as the code has it.  An image wider than 2048 is stored 2048
    wide and as high as the integer part of the double
    [h * (2048 / w)], truncated, not rounded; an image at most 2048 wide
    keeps its size.  (Sizes within what a canvas dimension can hold.) *)
Theorem upload_size img W :
  0 <= img_width img -> 0 <= img_height img <= 2147483647 ->
  (maxWidth < img_width img ->
   0 <= scaled_height (img_width img) (img_height img) <= 2147483647) ->
  let c := imgCanvas (handleImageUpload resample img W) in
  width c = (if maxWidth <? img_width img then maxWidth else img_width img) /\
  height c =
    (if maxWidth <? img_width img
     then scaled_height (img_width img) (img_height img)
     else img_height img).
Proof.
  intros Hw Hh Hs. cbv zeta. rewrite handleImageUpload_eq. cbv zeta.
  cbn [imgCanvas drawImage_scaled width height blank]. unfold final_size.
  destruct (maxWidth <? img_width img) eqn:E; cbn [fst snd].
  - apply Z.ltb_lt in E. split.
    + apply dim_value_Int. unfold maxWidth. lia.
    + unfold num_mul, num_div. cbn [to_float].
      apply dim_value_Dbl. apply Hs, E.
  - apply Z.ltb_ge in E. unfold maxWidth in E.
    split; apply dim_value_Int; lia.
Qed.

(** C7, on the code.  A click, button down then up with no move in
    between, on a page with an image loaded and no stroke in progress,
    leaves the mask canvas as it was: the one point [lineTo] places is a
    subpath with no line, and [stroke] drops it. *)
Theorem single_click_paints_nothing e W :
  reachable raster resample W ->
  imageLoaded (state W) = true -> isDrawing (state W) = false ->
  maskCanvas (run raster resample [MouseDown e; MouseUp] W) = maskCanvas W.
Proof.
  intros Hreach Hl Hd.
  pose proof (reachable_idle W Hreach Hd) as Hp.
  unfold run. cbn [foldl handle]. unfold stopDraw, startDraw. rewrite Hl.
  cbn [negb maskCanvas set_ctxMask set_state].
  rewrite paint_first_point by exact Hp. reflexivity.
Qed.


(** C9.  A call with an image loaded and a prompt that completes leaves
    the image canvas, the mask canvas and its context, and the session
    fields other than [hasResult] as they were; [hasResult] is true.  Of
    the page it changes three display styles and nothing else. *)
Theorem generation_frame W W' :
  imageLoaded (state W) = true -> promptValue (page W) <> ""%string ->
  runGeneration W = (W', Completed) ->
  imgCanvas W' = imgCanvas W /\ maskCanvas W' = maskCanvas W /\
  ctxMask W' = ctxMask W /\
  tool (state W') = tool (state W) /\ brushSize (state W') = brushSize (state W) /\
  isDrawing (state W') = isDrawing (state W) /\
  imageLoaded (state W') = imageLoaded (state W) /\
  hasResult (state W') = true /\
  page W' =
    set_loaderDisplay "none"
      (set_maskCanvasOpacity "0" (set_resultCanvasDisplay "block" (page W))).
Proof.
  intros Hl Hp Hrun. rewrite runGeneration_accepted in Hrun by assumption.
  pose proof (resume_frame
    (set_suspended (S (suspended W))
       (set_page (set_loaderDisplay "flex" (page W)) W))) as H.
  cbv zeta in H. rewrite Hrun in H. cbn [fst snd] in H.
  cbn [imgCanvas maskCanvas ctxMask state page set_suspended set_page] in H.
  destruct H as (? & ? & ? & ? & ? & ? & ? & Hr).
  destruct (Hr eq_refl) as [Hh Hpage].
  repeat split; assumption.
Qed.

(** C10.  With no image loaded, [exportImage] returns at once: the world,
    its list of downloads included, is the one before. *)
Theorem export_without_image W :
  imageLoaded (state W) = false ->
  exportImage W = W /\ downloads (page (exportImage W)) = downloads (page W).
Proof. intros Hl. unfold exportImage. rewrite Hl. by cbn. Qed.

End WithHost.

(** * The sample sessions, checked *)

Lemma session_reachable evs : reachable centre_sample nearest (session evs).
Proof.
  exists (300, 150), (300, 150), (300, 150), sample_page, evs.
  unfold valid_size; simpl. repeat split; lia.
Qed.

(** C1 on the painted session: the call completes, and the theorem gives
    the result canvas pixel by pixel. *)
Lemma generation_result_witness :
  reachable centre_sample nearest (session painted_events) /\
  runGeneration (session painted_events) =
    (fst (runGeneration (session painted_events)), Completed) /\
  (same_size (resultCanvas (fst (runGeneration (session painted_events))))
     (imgCanvas (session painted_events)) /\
   length (data (resultCanvas (fst (runGeneration (session painted_events))))) =
     length (data (imgCanvas (session painted_events))) /\
   forall k : nat, (k < npixels (imgCanvas (session painted_events)))%nat ->
     pixel_at (data (resultCanvas (fst (runGeneration (session painted_events))))) k =
       (if alpha_at (maskCanvas (session painted_events)) k =? 0
        then pixel_at (data (imgCanvas (session painted_events))) k
        else stored (shifted (pixel_at (data (imgCanvas (session painted_events))) k))) /\
     alpha_at (resultCanvas (fst (runGeneration (session painted_events)))) k =
       alpha_at (imgCanvas (session painted_events)) k /\
     (alpha_at (imgCanvas (session painted_events)) k = 255 ->
      pixel_at (data (resultCanvas (fst (runGeneration (session painted_events))))) k =
        if alpha_at (maskCanvas (session painted_events)) k =? 0
        then pixel_at (data (imgCanvas (session painted_events))) k
        else shifted (pixel_at (data (imgCanvas (session painted_events))) k)) /\
     (alpha_at (imgCanvas (session painted_events)) k = 0 ->
      pixel_at (data (resultCanvas (fst (runGeneration (session painted_events))))) k =
        transparent)).
Proof.
  assert (Hrun : runGeneration (session painted_events) =
                 (fst (runGeneration (session painted_events)), Completed))
    by (vm_compute; reflexivity).
  split; [apply session_reachable|]. split; [exact Hrun|].
  exact (generation_result centre_sample nearest _ _
           (session_reachable painted_events) Hrun).
Defined.

(** C1 as the specification states it fails on the painted session.  The
    image pixel (2, 1), under the stroke, reads 72, 76, 79 at alpha 81;
    the loop makes it 122, 96, 200; the canvas, which keeps the colour
    premultiplied by the alpha, reads 123, 94, 201 afterwards. *)
Lemma generation_bytes_not_kept :
  runGeneration (session painted_events) =
    (fst (runGeneration (session painted_events)), Completed) /\
  alpha_at (maskCanvas (session painted_events)) 6 <> 0 /\
  pixel_at (data (imgCanvas (session painted_events))) 6 =
    {| red := 72; green := 76; blue := 79; alpha := 81 |} /\
  shifted (pixel_at (data (imgCanvas (session painted_events))) 6) =
    {| red := 122; green := 96; blue := 200; alpha := 81 |} /\
  pixel_at (data (resultCanvas (fst (runGeneration (session painted_events))))) 6 =
    {| red := 123; green := 94; blue := 201; alpha := 81 |} /\
  ~ (forall k : nat, (k < npixels (imgCanvas (session painted_events)))%nat ->
       pixel_at (data (resultCanvas (fst (runGeneration (session painted_events))))) k =
         if alpha_at (maskCanvas (session painted_events)) k =? 0
         then pixel_at (data (imgCanvas (session painted_events))) k
         else shifted (pixel_at (data (imgCanvas (session painted_events))) k)).
Proof.
  split; [vm_compute; reflexivity|].
  split; [vm_compute; discriminate|].
  split; [vm_compute; reflexivity|].
  split; [vm_compute; reflexivity|].
  split; [vm_compute; reflexivity|].
  intros H. specialize (H 6%nat ltac:(vm_compute; lia)).
  vm_compute in H. discriminate H.
Qed.

(** The end-to-end run of the specification on the opaque 4 by 4 image:
    the painted pixel (2, 2) holds the shifted bytes, the unpainted pixel
    (0, 0) is the source pixel. *)
Example generation_end_to_end :
  let W := session opaque_events in
  let W' := fst (runGeneration W) in
  snd (runGeneration W) = Completed /\
  alpha_at (maskCanvas W) 10 = 255 /\
  pixel_at (data (imgCanvas W)) 10 = {| red := 120; green := 123; blue := 126; alpha := 255 |} /\
  pixel_at (data (resultCanvas W')) 10 =
    {| red := 170; green := 143; blue := 200; alpha := 255 |} /\
  alpha_at (maskCanvas W) 0 = 0 /\
  pixel_at (data (resultCanvas W')) 0 = pixel_at (data (imgCanvas W)) 0.
Proof. vm_compute. repeat split. Qed.

(** The same run on the image with partial alpha: under the stroke the
    alpha is kept and the colour is what the bitmap keeps of the shifted
    bytes; elsewhere the pixel is the source pixel. *)
Example generation_partial_alpha :
  let W := session painted_events in
  let W' := fst (runGeneration W) in
  pixel_at (data (imgCanvas W)) 10 = {| red := 121; green := 123; blue := 127; alpha := 129 |} /\
  shifted (pixel_at (data (imgCanvas W)) 10) =
    {| red := 171; green := 143; blue := 200; alpha := 129 |} /\
  pixel_at (data (resultCanvas W')) 10 =
    {| red := 172; green := 142; blue := 200; alpha := 129 |} /\
  pixel_at (data (resultCanvas W')) 0 = pixel_at (data (imgCanvas W)) 0.
Proof. vm_compute. repeat split. Qed.

(** The round trip through the bitmap on single pixels. *)
Example stored_examples :
  stored {| red := 122; green := 96; blue := 200; alpha := 81 |} =
    {| red := 123; green := 94; blue := 201; alpha := 81 |} /\
  stored {| red := 255; green := 50; blue := 50; alpha := 191 |} =
    {| red := 255; green := 49; blue := 49; alpha := 191 |} /\
  stored {| red := 122; green := 96; blue := 200; alpha := 255 |} =
    {| red := 122; green := 96; blue := 200; alpha := 255 |} /\
  stored {| red := 122; green := 96; blue := 200; alpha := 0 |} = transparent.
Proof. vm_compute. repeat split. Qed.

(** C2 with the eraser dragged back over the brush stroke: the alpha of
    pixel (2, 2) goes from 255 to 0. *)
Lemma paint_alpha_monotone_witness :
  reachable centre_sample nearest (session eraser_events) /\
  (tool (state (session eraser_events)) = eraser ->
   alpha_at (maskCanvas (paint centre_sample (at_pixel 3 2) (session eraser_events))) 10
     <= alpha_at (maskCanvas (session eraser_events)) 10) /\
  (tool (state (session eraser_events)) = brush ->
   alpha_at (maskCanvas (session eraser_events)) 10
     <= alpha_at (maskCanvas (paint centre_sample (at_pixel 3 2) (session eraser_events))) 10).
Proof.
  split; [apply session_reachable|].
  exact (paint_alpha_monotone centre_sample nearest (at_pixel 3 2) (session eraser_events)
           10 (session_reachable eraser_events)).
Defined.

Example eraser_drag_example :
  tool (state (session eraser_events)) = eraser /\
  alpha_at (maskCanvas (session eraser_events)) 10 = 255 /\
  alpha_at (maskCanvas (paint centre_sample (at_pixel 3 2) (session eraser_events))) 10 = 0.
Proof. vm_compute. repeat split. Qed.

(** C3 on the page as loaded. *)
Lemma generate_without_image_witness :
  imageLoaded (state (session [])) = false /\
  runGeneration (session []) =
    (set_page (alert "Please upload an image first." (page (session []))) (session []),
     Rejected "Please upload an image first.") /\
  maskCanvas (fst (runGeneration (session []))) = maskCanvas (session []) /\
  resultCanvas (fst (runGeneration (session []))) = resultCanvas (session []).
Proof.
  split; [reflexivity|].
  apply (generate_without_image (session [])). reflexivity.
Defined.

(** C4 with the image loaded and the prompt still empty. *)
Lemma generate_with_empty_prompt_witness :
  imageLoaded (state (session loaded_events)) = true /\
  promptValue (page (session loaded_events)) = ""%string /\
  runGeneration (session loaded_events) =
    (set_page (alert "Please enter a prompt describing the change."
                 (page (session loaded_events))) (session loaded_events),
     Rejected "Please enter a prompt describing the change.") /\
  imgCanvas (fst (runGeneration (session loaded_events))) = imgCanvas (session loaded_events) /\
  maskCanvas (fst (runGeneration (session loaded_events))) = maskCanvas (session loaded_events) /\
  resultCanvas (fst (runGeneration (session loaded_events))) =
    resultCanvas (session loaded_events) /\
  ctxMask (fst (runGeneration (session loaded_events))) = ctxMask (session loaded_events) /\
  state (fst (runGeneration (session loaded_events))) = state (session loaded_events).
Proof.
  split; [reflexivity|]. split; [reflexivity|].
  apply (generate_with_empty_prompt (session loaded_events)); reflexivity.
Defined.

(** C6 as the specification states it fails on the 8192 by 7 image: the
    canvas is 1 high, [round (7 * 2048 / 8192)] is 2. *)
Lemma upload_height_not_rounded :
  let c := imgCanvas (handleImageUpload nearest image_wide (session [])) in
  2048 < img_width image_wide /\
  ~ (width c = 2048 /\
     height c = rounded_height (img_width image_wide) (img_height image_wide)).
Proof.
  cbv zeta. split; [reflexivity|].
  rewrite handleImageUpload_eq. cbv zeta.
  cbn [imgCanvas drawImage_scaled width height blank].
  intros [_ H]. vm_compute in H. discriminate H.
Qed.

(** C6 as the code has it, on the same image and on the 4 by 4 one. *)
Lemma upload_size_witness :
  (0 <= img_width image_wide /\ 0 <= img_height image_wide <= 2147483647 /\
   0 <= scaled_height (img_width image_wide) (img_height image_wide) <= 2147483647) /\
  (width (imgCanvas (handleImageUpload nearest image_wide (session []))) = 2048 /\
   height (imgCanvas (handleImageUpload nearest image_wide (session []))) = 1).
Proof.
  assert (H1 : 0 <= img_width image_wide) by (vm_compute; discriminate).
  assert (H2 : 0 <= img_height image_wide <= 2147483647)
    by (split; vm_compute; discriminate).
  assert (H3 : 0 <= scaled_height (img_width image_wide) (img_height image_wide)
               <= 2147483647)
    by (split; vm_compute; discriminate).
  split; [by repeat split|].
  exact (upload_size nearest image_wide (session []) H1 H2 (fun _ => H3)).
Defined.

(** C7 on the code, for a click at pixel (2, 2) of the loaded image. *)
Lemma single_click_witness :
  reachable centre_sample nearest (session loaded_events) /\
  imageLoaded (state (session loaded_events)) = true /\
  isDrawing (state (session loaded_events)) = false /\
  maskCanvas (run centre_sample nearest [MouseDown (at_pixel 2 2); MouseUp]
                (session loaded_events)) =
    maskCanvas (session loaded_events).
Proof.
  split; [apply session_reachable|]. split; [reflexivity|]. split; [reflexivity|].
  apply (single_click_paints_nothing centre_sample nearest (at_pixel 2 2)
           (session loaded_events) (session_reachable loaded_events));
    reflexivity.
Defined.

(** The click leaves every mask pixel transparent, the clicked one
    included; the same press followed by a move to the next pixel paints
    it. *)
Example single_click_example :
  alpha_at (maskCanvas (session click_events)) 10 = 0 /\
  Forall (fun b => b = 0) (data (maskCanvas (session click_events))) /\
  alpha_at (maskCanvas (session painted_events)) 10 = 255.
Proof.
  split; [vm_compute; reflexivity|]. split; [|vm_compute; reflexivity].
  vm_compute. repeat constructor.
Qed.



(** What the [try] block and [catch] do to a result canvas that holds
    pixels, on a world made for the purpose: the result of the painted
    session next to an image canvas with no row.  (No session reaches
    this world, the three canvases being resized together.)  The failed
    run leaves the result canvas blank. *)
Example failed_run_clears_result :
  let W := set_imgCanvas (blank 4 0) (session generated_events) in
  snd (runGeneration W) = Failed InvalidStateError /\
  pixel_at (data (resultCanvas W)) 10 = {| red := 172; green := 142; blue := 200; alpha := 129 |} /\
  resultCanvas (fst (runGeneration W)) = blank 4 4.
Proof. vm_compute. repeat split. Qed.

(** C9 on the painted session. *)
Lemma generation_frame_witness :
  imageLoaded (state (session painted_events)) = true /\
  promptValue (page (session painted_events)) <> ""%string /\
  runGeneration (session painted_events) =
    (fst (runGeneration (session painted_events)), Completed) /\
  (imgCanvas (fst (runGeneration (session painted_events))) =
     imgCanvas (session painted_events) /\
   maskCanvas (fst (runGeneration (session painted_events))) =
     maskCanvas (session painted_events) /\
   ctxMask (fst (runGeneration (session painted_events))) =
     ctxMask (session painted_events) /\
   tool (state (fst (runGeneration (session painted_events)))) =
     tool (state (session painted_events)) /\
   brushSize (state (fst (runGeneration (session painted_events)))) =
     brushSize (state (session painted_events)) /\
   isDrawing (state (fst (runGeneration (session painted_events)))) =
     isDrawing (state (session painted_events)) /\
   imageLoaded (state (fst (runGeneration (session painted_events)))) =
     imageLoaded (state (session painted_events)) /\
   hasResult (state (fst (runGeneration (session painted_events)))) = true /\
   page (fst (runGeneration (session painted_events))) =
     set_loaderDisplay "none"
       (set_maskCanvasOpacity "0"
          (set_resultCanvasDisplay "block" (page (session painted_events))))).
Proof.
  assert (Hl : imageLoaded (state (session painted_events)) = true) by reflexivity.
  assert (Hp : promptValue (page (session painted_events)) <> ""%string)
    by (vm_compute; discriminate).
  assert (Hrun : runGeneration (session painted_events) =
                 (fst (runGeneration (session painted_events)), Completed))
    by (vm_compute; reflexivity).
  split; [exact Hl|]. split; [exact Hp|]. split; [exact Hrun|].
  exact (generation_frame (session painted_events) _ Hl Hp Hrun).
Defined.

(** C10 on the page as loaded. *)
Lemma export_without_image_witness :
  imageLoaded (state (session [])) = false /\
  exportImage (session []) = session [] /\
  downloads (page (exportImage (session []))) = downloads (page (session [])).
Proof.
  split; [reflexivity|].
  apply (export_without_image (session [])). reflexivity.
Defined.

(** * Further properties *)

(** ** Bitmaps, pixel by pixel *)

Lemma bitmap_ext d1 d2 n :
  length d1 = (4 * n)%nat -> length d2 = (4 * n)%nat ->
  (forall k, (k < n)%nat -> pixel_at d1 k = pixel_at d2 k) -> d1 = d2.
Proof.
  intros H1 H2 H.
  rewrite <- (bitmap_of_pixel_at d1 n H1), <- (bitmap_of_pixel_at d2 n H2).
  by apply bitmap_of_ext.
Qed.

Lemma canvas_eq (a b : Canvas) :
  width a = width b -> height a = height b -> data a = data b -> a = b.
Proof. destruct a, b; simpl; congruence. Qed.

(** ** Compositing at full and at no coverage *)

Lemma div255_full a : is_byte a -> div255 (a * 255) = a.
Proof.
  unfold is_byte, div255. intros H.
  symmetry. apply (Z.div_unique _ _ _ 127); lia.
Qed.

Lemma over_opaque s d :
  over s 255 d = {| red := red s; green := green s; blue := blue s; alpha := 255 |}.
Proof.
  unfold over. cbn [Z.eqb]. cbv zeta.
  change (255 - 255) with 0. rewrite !Z.mul_0_r.
  change (div255 0) with 0. rewrite !Z.add_0_r.
  by rewrite !stored_channel_opaque.
Qed.

Lemma out_opaque d : out 255 d = transparent.
Proof.
  unfold out. cbn [Z.eqb]. cbv zeta. change (255 - 255) with 0.
  rewrite !Z.mul_0_r. reflexivity.
Qed.

Lemma composite_none op style d : composite op style 0 d = d.
Proof.
  unfold composite. rewrite Z.mul_0_r. change (div255 0) with 0.
  destruct op; reflexivity.
Qed.

(** ** [runGeneration] and [exportImage] together *)

Lemma resume_completes W :
  wf_world W -> imageLoaded (state W) = true ->
  width (imgCanvas W) <> 0 -> height (imgCanvas W) <> 0 ->
  exists W', runGeneration_resume W = (W', Completed).
Proof.
  intros Hwf Hl Hw Hh.
  destruct (try_block_completes W Hwf Hl Hw Hh) as (W1 & E & _).
  unfold runGeneration_resume. rewrite E. eexists. reflexivity.
Qed.

Lemma resume_throws W :
  wf_world W -> imageLoaded (state W) = true ->
  width (imgCanvas W) = 0 \/ height (imgCanvas W) = 0 ->
  snd (runGeneration_resume W) = Failed InvalidStateError.
Proof.
  intros Hwf Hl H0.
  destruct (try_block_throws W Hwf Hl H0) as (W1 & E & _).
  unfold runGeneration_resume. rewrite E. reflexivity.
Qed.

(** X14.  Export after a generation that completed downloads the result
    canvas, under the fixed file name, and changes nothing else. *)
Theorem export_after_generation W W' :
  runGeneration W = (W', Completed) ->
  exportImage W' =
    set_page
      (click_link {| download := "vivopaint-export.png"; href := resultCanvas W' |}
         (page W')) W'.
Proof.
  intros Hrun.
  destruct (runGeneration_not_rejected W W' Completed Hrun) as [Hl Hp];
    [discriminate|].
  rewrite runGeneration_accepted in Hrun by assumption.
  pose proof (resume_frame
    (set_suspended (S (suspended W))
       (set_page (set_loaderDisplay "flex" (page W)) W))) as H.
  cbv zeta in H. rewrite Hrun in H. cbn [fst snd] in H.
  cbn [state set_suspended set_page] in H.
  destruct H as (_ & _ & _ & _ & _ & _ & Hl' & Hr).
  destruct (Hr eq_refl) as [Hh _].
  unfold exportImage. rewrite Hl', Hl, Hh. reflexivity.
Qed.

Lemma trace_short (sp : list subpath) :
  sp = [] \/ (exists p, sp = [[p]]) -> trace_path sp = [].
Proof. intros [-> | [p ->]]; reflexivity. Qed.

Lemma session_eta (s : Session) :
  isDrawing s = false -> set_isDrawing false s = s.
Proof. destruct s; simpl; intros ->; reflexivity. Qed.

Lemma context_eta (ctx : Context2D) : path ctx = [] -> beginPath ctx = ctx.
Proof. destruct ctx; simpl; intros ->; reflexivity. Qed.

Lemma stopDraw_idle W :
  isDrawing (state W) = false -> path (ctxMask W) = [] -> stopDraw W = W.
Proof.
  intros Hd Hp. unfold stopDraw. rewrite session_eta, context_eta by assumption.
  by destruct W.
Qed.

Section HostInvariants.

Variable raster : Z -> LineCap -> LineJoin -> list subpath -> Z -> Z -> Z.
Variable resample : Image -> number -> number -> Z -> Z -> rgba.

Lemma paint_stroke e W :
  paint raster e W =
    set_ctxMask
      (moveTo (fst (to_image_space e W)) (snd (to_image_space e W))
         (beginPath (painting_context e W)))
      (set_maskCanvas (stroke raster (painting_context e W) (maskCanvas W)) W).
Proof. unfold paint, painting_context, to_image_space. by destruct (tool (state W)). Qed.

Lemma painting_context_style e W :
  strokeStyle (painting_context e W) = tool_colour (tool (state W)) /\
  globalCompositeOperation (painting_context e W) = tool_operation (tool (state W)).
Proof.
  unfold painting_context.
  rewrite (proj1 (lineTo_style _ _ _)), (proj2 (lineTo_style _ _ _)). by split.
Qed.

Lemma paint_path e W :
  path (ctxMask (paint raster e W)) =
    if is_finite (fst (to_image_space e W)) && is_finite (snd (to_image_space e W))
    then [[to_image_space e W]] else [].
Proof.
  rewrite paint_stroke. cbn [ctxMask set_ctxMask]. unfold moveTo.
  destruct (_ && _); [|reflexivity].
  cbn [path with_path beginPath app]. by destruct (to_image_space e W).
Qed.

(** ** What the session flags and the path can become *)

Lemma handle_flags ev W :
  let W' := handle raster resample ev W in
  (imageLoaded (state W) = true -> imageLoaded (state W') = true) /\
  ((isDrawing (state W) = true -> imageLoaded (state W) = true) ->
   isDrawing (state W') = true -> imageLoaded (state W') = true).
Proof.
  cbv zeta. destruct ev; cbn [handle]; try (split; [auto | auto; fail]).
  - rewrite handleImageUpload_eq. by split.
  - unfold startDraw. destruct (imageLoaded (state W)) eqn:E; cbn [negb].
    + rewrite (proj1 (proj2 (proj2 (paint_frame raster e _)))). by split.
    + split; [discriminate | by rewrite E].
  - unfold draw. destruct (negb _); [by split|].
    rewrite (proj1 (proj2 (proj2 (paint_frame raster e _)))). by split.
  - split; [auto | discriminate].
  - unfold runGeneration_start.
    destruct (negb _); [|destruct (String.eqb _ _)]; by split.
  - destruct (suspended W); [by split|].
    destruct (resume_frame W) as (_ & _ & _ & _ & _ & -> & -> & _). by split.
  - unfold exportImage. destruct (negb _); by split.
Qed.

Lemma handle_short ev W : short_path W -> short_path (handle raster resample ev W).
Proof.
  unfold short_path. intros H. destruct ev; cbn [handle]; try exact H.
  - rewrite handleImageUpload_eq. by left.
  - unfold startDraw. destruct (negb _); [exact H|].
    rewrite paint_path. destruct (_ && _); eauto.
  - unfold draw. destruct (negb _); [exact H|].
    rewrite paint_path. destruct (_ && _); eauto.
  - by left.
  - unfold runGeneration_start.
    destruct (negb _); [|destruct (String.eqb _ _)]; exact H.
  - destruct (suspended W); [exact H|].
    destruct (resume_frame W) as (_ & _ & -> & _). exact H.
  - unfold exportImage. destruct (negb _); exact H.
Qed.

Lemma run_snoc evs ev W :
  run raster resample (evs ++ [ev]) W =
    handle raster resample ev (run raster resample evs W).
Proof. unfold run. by rewrite foldl_app. Qed.

Lemma run_cons ev evs W :
  run raster resample (ev :: evs) W =
    run raster resample evs (handle raster resample ev W).
Proof. reflexivity. Qed.

Lemma reachable_run evs W :
  reachable raster resample W -> reachable raster resample (run raster resample evs W).
Proof.
  revert W. induction evs as [|ev evs IH]; intros W H; [exact H|].
  rewrite run_cons. apply IH. by apply reachable_step.
Qed.

Lemma reachable_drawing W :
  reachable raster resample W ->
  isDrawing (state W) = true -> imageLoaded (state W) = true.
Proof.
  intros (img & mask & result & p & evs & _ & _ & _ & ->).
  induction evs as [|ev evs IH] using rev_ind; [discriminate|].
  rewrite run_snoc. by apply handle_flags.
Qed.

Lemma reachable_short W : reachable raster resample W -> short_path W.
Proof.
  intros (img & mask & result & p & evs & _ & _ & _ & ->).
  induction evs as [|ev evs IH] using rev_ind; [by left|].
  rewrite run_snoc. by apply handle_short.
Qed.

End HostInvariants.

Section HostBehaviour.

Variable raster : Z -> LineCap -> LineJoin -> list subpath -> Z -> Z -> Z.
Variable resample : Image -> number -> number -> Z -> Z -> rgba.

(** X1.  Once an image is loaded it stays loaded: no handler sets
    [imageLoaded] back to false. *)
Theorem image_stays_loaded evs W :
  imageLoaded (state W) = true ->
  imageLoaded (state (run raster resample evs W)) = true.
Proof.
  revert W. induction evs as [|ev evs IH]; intros W H; [exact H|].
  rewrite run_cons. apply IH.
  exact (proj1 (handle_flags raster resample ev W) H).
Qed.

(** X2.  Whenever an image is loaded the three canvases have the same
    width and height, and each holds four bytes per pixel. *)
Theorem canvases_in_lockstep W :
  reachable raster resample W -> imageLoaded (state W) = true ->
  same_size (maskCanvas W) (imgCanvas W) /\
  same_size (resultCanvas W) (imgCanvas W) /\
  length (data (imgCanvas W)) = (4 * npixels (imgCanvas W))%nat /\
  length (data (maskCanvas W)) = (4 * npixels (imgCanvas W))%nat /\
  length (data (resultCanvas W)) = (4 * npixels (imgCanvas W))%nat.
Proof.
  intros Hr Hl.
  destruct (reachable_wf raster resample W Hr) as (Hi & Hm & Hres & _ & _ & Hsz).
  destruct (Hsz Hl) as [Hms Hrs].
  rewrite <- (same_size_npixels _ _ Hms) at 2.
  rewrite <- (same_size_npixels _ _ Hrs) at 2.
  repeat split; try apply Hms; try apply Hrs; [apply Hi | apply Hm | apply Hres].
Qed.

(** X3.  The current path of the mask context never grows: between events
    it is empty or holds one subpath of one point. *)
Theorem path_stays_short W :
  reachable raster resample W ->
  path (ctxMask W) = [] \/ exists p, path (ctxMask W) = [[p]].
Proof. apply reachable_short. Qed.

(** Before any image is loaded, [startDraw], [draw] and [stopDraw] return
    the world they were given. *)
Lemma pointer_listeners_idle evs W :
  reachable raster resample W -> imageLoaded (state W) = false ->
  forallb is_mouse evs = true ->
  run raster resample evs W = W.
Proof.
  intros Hr Hl. induction evs as [|ev evs IH]; intros Hm; [reflexivity|].
  cbn [forallb] in Hm. apply andb_true_iff in Hm as [Hev Hevs].
  rewrite run_cons.
  assert (Hd : isDrawing (state W) = false).
  { destruct (isDrawing (state W)) eqn:E; [|reflexivity].
    rewrite (reachable_drawing raster resample W Hr E) in Hl. discriminate. }
  assert (Hstep : handle raster resample ev W = W).
  { destruct ev; try discriminate; cbn [handle].
    - unfold startDraw. by rewrite Hl.
    - unfold draw. by rewrite Hd.
    - apply stopDraw_idle; [assumption|].
      by apply (reachable_idle raster resample W Hr). }
  rewrite Hstep. by apply IH.
Qed.

(** X4.  Before any image is loaded, presses, moves and releases of the
    pointer paint nothing and start no stroke: [startDraw], [draw] and
    [stopDraw] leave the session flags, the three canvases and the mask
    context (drawing state and current path) as they are.  (The cursor
    overlay, which [updateCursorPos] moves with the pointer, is not part
    of the world.) *)
Theorem mouse_without_image evs W :
  reachable raster resample W -> imageLoaded (state W) = false ->
  forallb is_mouse evs = true ->
  state (run raster resample evs W) = state W /\
  imgCanvas (run raster resample evs W) = imgCanvas W /\
  maskCanvas (run raster resample evs W) = maskCanvas W /\
  resultCanvas (run raster resample evs W) = resultCanvas W /\
  ctxMask (run raster resample evs W) = ctxMask W.
Proof.
  intros Hr Hl Hm. by rewrite pointer_listeners_idle.
Qed.

(** X5.  After the button is released, moves paint nothing: a release
    followed by any number of moves is the release alone. *)
Theorem release_stops_drawing (es : list MouseEvent) W :
  run raster resample (MouseUp :: (MouseMove <$> es)) W = stopDraw W.
Proof.
  rewrite run_cons. cbn [handle].
  assert (Hd : isDrawing (state (stopDraw W)) = false) by reflexivity.
  revert Hd. generalize (stopDraw W) as W0. clear W.
  induction es as [|e es IH]; intros W0 Hd; [reflexivity|].
  cbn [fmap list_fmap]. rewrite run_cons. cbn [handle].
  unfold draw. rewrite Hd. cbn [negb]. by apply IH.
Qed.

(** X6.  During a stroke each move strokes one segment, from the point of
    the previous event to the point of this one, with the brush size as
    line width, round caps and joins, and the operator and colour of the
    tool; the path is then reset to the new point alone. *)
Theorem move_paints_segment e W p :
  isDrawing (state W) = true -> path (ctxMask W) = [[p]] ->
  0 < brushSize (state W) ->
  is_finite (fst (to_image_space e W)) && is_finite (snd (to_image_space e W)) = true ->
  maskCanvas (draw raster e W) =
    stroke raster
      {| lineWidth := brushSize (state W); lineCap := cap_round; lineJoin := join_round;
         globalCompositeOperation := tool_operation (tool (state W));
         strokeStyle := tool_colour (tool (state W));
         path := [[p; to_image_space e W]] |}
      (maskCanvas W) /\
  path (ctxMask (draw raster e W)) = [[to_image_space e W]].
Proof.
  intros Hd Hp Hb Hf. unfold draw. rewrite Hd. cbn [negb].
  split; [|by rewrite paint_path, Hf].
  rewrite paint_stroke. cbn [maskCanvas set_ctxMask set_maskCanvas].
  f_equal. unfold painting_context, lineTo, set_lineWidth.
  rewrite Hf. apply Z.ltb_lt in Hb. rewrite Hb.
  cbn [path with_path set_strokeStyle set_globalCompositeOperation set_lineJoin
       set_lineCap lineWidth lineCap lineJoin globalCompositeOperation strokeStyle].
  rewrite Hp. cbn [extend_last app]. by destruct (to_image_space e W).
Qed.

(** X7.  When the pointer maps to a point that is not finite (a mask canvas
    laid out with no width or height), [paint] leaves the mask canvas as
    it is and the path empty. *)
Theorem paint_off_layout e W :
  reachable raster resample W ->
  is_finite (fst (to_image_space e W)) && is_finite (snd (to_image_space e W)) = false ->
  maskCanvas (paint raster e W) = maskCanvas W /\
  path (ctxMask (paint raster e W)) = [].
Proof.
  intros Hr Hf. split; [|by rewrite paint_path, Hf].
  rewrite paint_stroke. cbn [maskCanvas set_ctxMask set_maskCanvas].
  apply stroke_nothing. apply trace_short.
  unfold painting_context, lineTo. rewrite Hf.
  cbn [path set_strokeStyle set_globalCompositeOperation set_lineJoin set_lineCap].
  rewrite path_set_lineWidth. by apply (reachable_short raster resample).
Qed.

(** X8.  Where the stroke covers a pixel fully, the brush leaves it the
    opaque stroke colour (255, 50, 50, 255) and the eraser leaves it
    transparent black, whatever it held. *)
Theorem paint_full_coverage e W (k : nat) :
  (k < npixels (maskCanvas W))%nat ->
  trace_path (path (painting_context e W)) <> [] ->
  coverage raster (painting_context e W) (maskCanvas W) k = 255 ->
  pixel_at (data (maskCanvas (paint raster e W))) k =
    match tool (state W) with
    | brush => {| red := 255; green := 50; blue := 50; alpha := 255 |}
    | eraser => transparent
    end.
Proof.
  intros Hk Ht Hc. rewrite paint_stroke. cbn [maskCanvas set_ctxMask set_maskCanvas].
  rewrite stroke_pixel by assumption. rewrite Hc.
  destruct (painting_context_style e W) as [-> ->].
  destruct (tool (state W)); unfold composite; cbn [tool_operation tool_colour alpha].
  - change (div255 (255 * 255)) with 255. by rewrite over_opaque.
  - change (div255 (255 * 255)) with 255. by rewrite out_opaque.
Qed.

(** X9.  A pixel the stroke does not cover keeps its four bytes, with
    either tool. *)
Theorem paint_no_coverage e W (k : nat) :
  (k < npixels (maskCanvas W))%nat ->
  coverage raster (painting_context e W) (maskCanvas W) k = 0 ->
  pixel_at (data (maskCanvas (paint raster e W))) k = pixel_at (data (maskCanvas W)) k.
Proof.
  intros Hk Hc. rewrite paint_stroke. cbn [maskCanvas set_ctxMask set_maskCanvas].
  destruct (decide (trace_path (path (painting_context e W)) = [])) as [E|E].
  - by rewrite stroke_nothing.
  - rewrite stroke_pixel by assumption. rewrite Hc. apply composite_none.
Qed.

(** X10.  [clearMask] leaves the mask canvas blank at its size and touches
    nothing else. *)
Theorem clearMask_clears W :
  reachable raster resample W ->
  clearMask W = set_maskCanvas (blank (width (maskCanvas W)) (height (maskCanvas W))) W.
Proof.
  intros Hr. unfold clearMask. rewrite clearRect_blank; [reflexivity|].
  apply (reachable_wf raster resample W Hr).
Qed.

(** X11.  With a mask that selects nothing, a generation that completes
    leaves in the result canvas the bytes of the image canvas. *)
Theorem generate_with_clear_mask W W' :
  reachable raster resample W ->
  (forall k : nat, alpha_at (maskCanvas W) k = 0) ->
  runGeneration W = (W', Completed) ->
  data (resultCanvas W') = data (imgCanvas W).
Proof.
  intros Hr Hclear Hrun.
  destruct (runGeneration_not_rejected W W' Completed Hrun) as [Hl Hp];
    [discriminate|].
  rewrite runGeneration_accepted in Hrun by assumption.
  pose proof (reachable_wf raster resample W Hr) as Hwf.
  apply resume_completed in Hrun; [|by apply start_wf_accepted|assumption].
  cbn [imgCanvas maskCanvas resultCanvas state page set_suspended set_page] in Hrun.
  destruct Hrun as (_ & _ & -> & _).
  destruct Hwf as (Hi & Hm & _ & Hcan & _ & Hsz).
  destruct (Hsz Hl) as [Hms _].
  destruct Hi as (_ & _ & Hil & Hib). destruct Hm as (_ & _ & Hml & _).
  rewrite (same_size_npixels _ _ Hms) in Hml.
  apply (bitmap_ext _ _ (npixels (imgCanvas W)));
    [apply length_bitmap_of|assumption|].
  intros k Hk. unfold stored_bitmap. rewrite pixel_at_bitmap_of by assumption.
  rewrite (simulate_pixel _ _ _ _ Hml Hil Hib Hk).
  specialize (Hclear k). unfold alpha_at in Hclear. rewrite Hclear.
  apply Hcan.
Qed.

(** X12.  A call that passed the two guards fails exactly when the image
    canvas has a zero width or height, with the [InvalidStateError] of
    [drawImage]; otherwise it completes. *)
Theorem generation_outcome W :
  reachable raster resample W ->
  imageLoaded (state W) = true -> promptValue (page W) <> ""%string ->
  snd (runGeneration W) =
    if (width (imgCanvas W) =? 0) || (height (imgCanvas W) =? 0)
    then Failed InvalidStateError else Completed.
Proof.
  intros Hr Hl Hp. rewrite runGeneration_accepted by assumption.
  pose proof (start_wf_accepted W (reachable_wf raster resample W Hr)) as Hwf.
  set (W1 := set_suspended _ _) in *.
  destruct (width (imgCanvas W) =? 0) eqn:Ew.
  { apply Z.eqb_eq in Ew. apply resume_throws; [assumption..|by left]. }
  destruct (height (imgCanvas W) =? 0) eqn:Eh.
  { apply Z.eqb_eq in Eh. apply resume_throws; [assumption..|by right]. }
  apply Z.eqb_neq in Ew, Eh.
  destruct (resume_completes W1 Hwf Hl Ew Eh) as [W' ->]. reflexivity.
Qed.

(** X13.  Generating again with nothing changed completes again and leaves
    the same result canvas: the transform is applied to the image, never
    to the previous result. *)
Theorem regenerate_same_result W W1 :
  reachable raster resample W ->
  runGeneration W = (W1, Completed) ->
  exists W2, runGeneration W1 = (W2, Completed) /\ resultCanvas W2 = resultCanvas W1.
Proof.
  intros Hr Hrun.
  destruct (runGeneration_not_rejected W W1 Completed Hrun) as [Hl Hp];
    [discriminate|].
  rewrite runGeneration_accepted in Hrun by assumption.
  pose proof (start_wf_accepted W (reachable_wf raster resample W Hr)) as Hwf.
  pose proof (runGeneration_resume_wf _ Hwf) as Hwf1. rewrite Hrun in Hwf1.
  cbn [fst] in Hwf1.
  apply resume_completed in Hrun; [|assumption|assumption].
  cbn [imgCanvas maskCanvas resultCanvas state page set_suspended set_page] in Hrun.
  destruct Hrun as (Hw & Hh & Hd & [Erw Erh] & Hi & Hm & _ & Hst & Hpg).
  assert (Hl1 : imageLoaded (state W1) = true) by (by rewrite Hst).
  assert (Hp1 : promptValue (page W1) <> ""%string) by (by rewrite Hpg).
  rewrite runGeneration_accepted by assumption.
  pose proof (start_wf_accepted W1 Hwf1) as Hwf1'.
  destruct (resume_completes _ Hwf1' Hl1) as [W2 E2];
    [cbn [imgCanvas set_suspended set_page]; by rewrite Hi..|].
  exists W2. split; [exact E2|].
  apply resume_completed in E2; [|assumption|assumption].
  cbn [imgCanvas maskCanvas resultCanvas state page set_suspended set_page] in E2.
  destruct E2 as (_ & _ & Hd2 & [Erw2 Erh2] & _).
  apply canvas_eq; [assumption..|]. by rewrite Hd2, Hd, Hi, Hm.
Qed.

(** X15.  Export right after an upload downloads the image canvas just
    stored, whatever result was there before the upload. *)
Theorem export_after_upload img W :
  let W1 := handleImageUpload resample img W in
  exportImage W1 =
    set_page
      (click_link {| download := "vivopaint-export.png"; href := imgCanvas W1 |}
         (page W1)) W1.
Proof. cbv zeta. rewrite handleImageUpload_eq. reflexivity. Qed.

(** X16.  An upload leaves the result canvas blank at the size of the image
    canvas and hidden, resets the mask context, and keeps the tool, the
    brush size and the prompt. *)
Theorem upload_discards_result img W :
  let W1 := handleImageUpload resample img W in
  resultCanvas W1 = blank (width (imgCanvas W1)) (height (imgCanvas W1)) /\
  resultCanvasDisplay (page W1) = "none"%string /\
  ctxMask W1 = default_context /\
  imageLoaded (state W1) = true /\
  tool (state W1) = tool (state W) /\ brushSize (state W1) = brushSize (state W) /\
  promptValue (page W1) = promptValue (page W).
Proof. cbv zeta. rewrite handleImageUpload_eq. by repeat split. Qed.

(** X17.  The stored image is never wider than 2048. *)
Theorem upload_width_bounded img W :
  0 <= img_width img ->
  0 <= width (imgCanvas (handleImageUpload resample img W)) <= maxWidth.
Proof.
  intros Hw. rewrite handleImageUpload_eq. cbv zeta.
  cbn [imgCanvas drawImage_scaled width blank]. unfold final_size.
  destruct (maxWidth <? img_width img) eqn:E; cbn [fst].
  - rewrite dim_value_Int; unfold maxWidth; lia.
  - apply Z.ltb_ge in E. unfold maxWidth in *. rewrite dim_value_Int; lia.
Qed.

Lemma handle_opacity ev W :
  maskCanvasOpacity (page (handle raster resample ev W)) = "0"%string \/
  maskCanvasOpacity (page (handle raster resample ev W)) = maskCanvasOpacity (page W).
Proof.
  destruct ev; cbn [handle]; try (by right).
  - rewrite handleImageUpload_eq. by right.
  - unfold startDraw. destruct (negb _); [by right|].
    rewrite (proj1 (proj2 (proj2 (proj2 (paint_frame raster e _))))). by right.
  - unfold draw. destruct (negb _); [by right|].
    rewrite (proj1 (proj2 (proj2 (proj2 (paint_frame raster e _))))). by right.
  - unfold runGeneration_start.
    destruct (negb _); [|destruct (String.eqb _ _)]; by right.
  - destruct (suspended W); [by right|]. unfold runGeneration_resume.
    pose proof (try_block_page W) as Hp.
    destruct (try_block W) as [W1 [err|]]; cbn [fst snd] in *;
      cbn [page set_suspended set_page]; rewrite Hp; [by right|by left].
  - unfold exportImage. destruct (negb _); by right.
Qed.

(** X18.  A generation that completes hides the mask canvas (opacity 0), and
    no handler shows it again: not a stroke, not [clearMask], not a new
    upload. *)
Theorem mask_stays_hidden evs W W' :
  runGeneration W = (W', Completed) ->
  maskCanvasOpacity (page (run raster resample evs W')) = "0"%string.
Proof.
  intros Hrun.
  assert (H0 : maskCanvasOpacity (page W') = "0"%string).
  { destruct (runGeneration_not_rejected W W' Completed Hrun) as [Hl Hp];
      [discriminate|].
    rewrite runGeneration_accepted in Hrun by assumption.
    pose proof (resume_frame
      (set_suspended (S (suspended W))
         (set_page (set_loaderDisplay "flex" (page W)) W))) as H.
    cbv zeta in H. rewrite Hrun in H. cbn [fst snd] in H.
    destruct H as (_ & _ & _ & _ & _ & _ & _ & Hr).
    destruct (Hr eq_refl) as [_ ->]. reflexivity. }
  clear Hrun. revert W' H0.
  induction evs as [|ev evs IH]; intros W' H0; [exact H0|].
  rewrite run_cons. apply IH.
  destruct (handle_opacity ev W') as [E|E]; [exact E | by rewrite E].
Qed.

End HostBehaviour.

(** ** Strings and [dataURItoBlob] *)

Lemma free_of_String c x s :
  free_of c (String x s) <-> x <> c /\ free_of c s.
Proof. unfold free_of. simpl. tauto. Qed.

Lemma free_of_append c a b :
  free_of c (String.append a b) <-> free_of c a /\ free_of c b.
Proof.
  induction a as [|x a IH].
  - change (String.append EmptyString b) with b. unfold free_of at 2. simpl. tauto.
  - change (String.append (String x a) b) with (String x (String.append a b)).
    rewrite !free_of_String, IH. tauto.
Qed.

Lemma split_on_free c s : free_of c s -> split_on c s = [s].
Proof.
  induction s as [|x s IH]; intros H; [reflexivity|].
  apply free_of_String in H as [Hx Hs]. simpl.
  apply Ascii.eqb_neq in Hx. rewrite Hx, IH by assumption. reflexivity.
Qed.

Lemma split_on_append c a b :
  free_of c a -> split_on c (String.append a (String c b)) = a :: split_on c b.
Proof.
  induction a as [|x a IH]; intros H.
  - change (String.append EmptyString (String c b)) with (String c b).
    cbn [split_on]. by rewrite Ascii.eqb_refl.
  - change (String.append (String x a) (String c b))
      with (String x (String.append a (String c b))).
    apply free_of_String in H as [Hx Ha]. cbn [split_on].
    apply Ascii.eqb_neq in Hx. rewrite Hx, IH by assumption. reflexivity.
Qed.

Lemma get_lookup s (i : nat) :
  String.get i s = String.list_ascii_of_string s !! i.
Proof.
  revert i; induction s as [|x s IH]; intros i; [by destruct i|].
  destruct i as [|i]; [reflexivity|]. simpl. apply IH.
Qed.

Lemma length_list_ascii s :
  length (String.list_ascii_of_string s) = String.length s.
Proof. induction s as [|x s IH]; simpl; [reflexivity | by rewrite IH]. Qed.

Lemma length_code_units s : length (code_units s) = String.length s.
Proof. unfold code_units. by rewrite length_fmap, length_list_ascii. Qed.

Lemma length_store_uint8 i v ia : length (store_uint8 i v ia) = length ia.
Proof. apply length_insert. Qed.

(** The copy loop of [dataURItoBlob], up to its [m]-th round. *)
Lemma copy_loop_prefix bs (m : nat) :
  (m <= String.length bs)%nat ->
  let ia := foldl (fun ia i => store_uint8 i (charCodeAt bs i) ia)
              (replicate (String.length bs) 0) (seq 0 m) in
  length ia = String.length bs /\
  forall j : nat,
    ia !! j = if decide (j < m)%nat then code_units bs !! j
              else replicate (String.length bs) 0 !! j.
Proof.
  induction m as [|m IH]; intros Hm; cbv zeta.
  - split; [apply length_replicate|]. intros j. case_decide; [lia|reflexivity].
  - destruct IH as [IHl IHj]; [lia|].
    rewrite seq_S, foldl_app. cbn [foldl Nat.add].
    set (ia := foldl _ _ (seq 0 m)) in *.
    split; [by rewrite length_store_uint8|].
    intros j. unfold store_uint8.
    destruct (decide (j = m)) as [->|Hne].
    + rewrite list_lookup_insert_eq by lia.
      case_decide; [|lia].
      unfold charCodeAt, code_units. rewrite get_lookup, list_lookup_fmap.
      destruct (String.list_ascii_of_string bs !! m) as [c|] eqn:E; simpl.
      * f_equal. apply Z.mod_small.
        pose proof (Ascii.nat_ascii_bounded c). lia.
      * apply lookup_ge_None_1 in E. rewrite length_list_ascii in E. lia.
    + rewrite list_lookup_insert_ne by congruence. rewrite IHj.
      repeat case_decide; try lia; reflexivity.
Qed.

Lemma copy_loop bs :
  foldl (fun ia i => store_uint8 i (charCodeAt bs i) ia)
    (replicate (String.length bs) 0) (seq 0 (String.length bs)) = code_units bs.
Proof.
  destruct (copy_loop_prefix bs (String.length bs) ltac:(lia)) as [Hl Hj].
  apply list_eq. intros j. rewrite Hj. case_decide as Hlt; [reflexivity|].
  rewrite (lookup_ge_None_2 (replicate _ _)) by (rewrite length_replicate; lia).
  symmetry. apply lookup_ge_None_2. rewrite length_code_units. lia.
Qed.

Lemma comma_colon : comma <> colon.
Proof. discriminate. Qed.

Lemma semicolon_comma : semicolon <> comma.
Proof. discriminate. Qed.

Lemma semicolon_colon : semicolon <> colon.
Proof. discriminate. Qed.

Section Base64Properties.

Variable atob : string -> option string.

(** X19.  A data URL [scheme:mime;params,payload] becomes a blob whose bytes
    are the code units of the decoded payload and whose type is the
    media type in lower case. *)
Theorem dataURItoBlob_data_url scheme mime params payload bs :
  free_of comma scheme -> free_of colon scheme ->
  free_of comma mime -> free_of colon mime -> free_of semicolon mime ->
  free_of comma params -> free_of colon params ->
  free_of comma payload ->
  atob payload = Some bs ->
  dataURItoBlob atob
    (String.append
       (String.append scheme (String colon (String.append mime (String semicolon params))))
       (String comma payload)) =
  inr {| blob_bytes := code_units bs; blob_type := blob_type_of mime |}.
Proof.
  intros Hs1 Hs2 Hm1 Hm2 Hm3 Hp1 Hp2 Hpl Hatob.
  set (rest := String.append mime (String semicolon params)).
  set (head := String.append scheme (String colon rest)).
  assert (Hrest_comma : free_of comma rest).
  { unfold rest. apply free_of_append. split; [assumption|].
    apply free_of_String. split; [apply semicolon_comma | assumption]. }
  assert (Hhead : free_of comma head).
  { unfold head. apply free_of_append. split; [assumption|].
    apply free_of_String. split; [intros E; by apply comma_colon | assumption]. }
  assert (Hrest_colon : free_of colon rest).
  { unfold rest. apply free_of_append. split; [assumption|].
    apply free_of_String. split; [apply semicolon_colon | assumption]. }
  fold rest. fold head. unfold dataURItoBlob.
  rewrite split_on_append, (split_on_free comma payload) by assumption.
  cbn [lookup list_lookup default from_option id].
  rewrite Hatob. unfold head.
  rewrite split_on_append, (split_on_free colon rest) by assumption.
  cbn [lookup list_lookup default from_option id]. unfold rest.
  rewrite split_on_append by assumption.
  cbn [lookup list_lookup default from_option id].
  by rewrite copy_loop.
Qed.

(** X20.  When the text before the first comma has no colon, the media type
    cannot be read: the call ends in a [TypeError], after the payload was
    decoded. *)
Theorem dataURItoBlob_no_colon head payload bs :
  free_of comma head -> free_of colon head -> free_of comma payload ->
  atob payload = Some bs ->
  dataURItoBlob atob (String.append head (String comma payload)) = inl TypeError.
Proof.
  intros Hh1 Hh2 Hpl Hatob. unfold dataURItoBlob.
  rewrite split_on_append, (split_on_free comma payload) by assumption.
  cbn [lookup list_lookup default from_option id].
  rewrite Hatob, (split_on_free colon head) by assumption. reflexivity.
Qed.

(** X21.  When the call returns a blob, its bytes are the code units of the
    string [atob] decoded, one byte per character, whatever the URL. *)
Theorem dataURItoBlob_bytes dataURI b :
  dataURItoBlob atob dataURI = inr b ->
  exists bs,
    atob (default "undefined"%string (split_on comma dataURI !! 1%nat)) = Some bs /\
    blob_bytes b = code_units bs /\
    length (blob_bytes b) = String.length bs.
Proof.
  unfold dataURItoBlob.
  destruct (atob _) as [bs|]; [|discriminate].
  destruct (split_on colon _ !! 1%nat); [|discriminate].
  intros [= <-]. exists bs. cbn [blob_bytes].
  rewrite copy_loop, length_code_units. auto.
Qed.

(** X22.  A URL with no comma has no second field: [atob] is called on the
    text "undefined", and the call throws when [atob] rejects it. *)
Theorem dataURItoBlob_no_comma dataURI :
  free_of comma dataURI -> atob "undefined" = None ->
  dataURItoBlob atob dataURI = inl InvalidCharacterError.
Proof.
  intros Hc Ha. unfold dataURItoBlob. rewrite split_on_free by assumption.
  cbn [lookup list_lookup default from_option id]. by rewrite Ha.
Qed.

End Base64Properties.

(** * The further properties on the sample sessions *)

Lemma image_stays_loaded_witness :
  imageLoaded (state (session loaded_events)) = true /\
  imageLoaded (state (run centre_sample nearest later_events (session loaded_events))) = true.
Proof.
  split; [reflexivity|].
  apply (image_stays_loaded centre_sample nearest later_events (session loaded_events)).
  reflexivity.
Defined.

Lemma canvases_in_lockstep_witness :
  reachable centre_sample nearest (session painted_events) /\
  imageLoaded (state (session painted_events)) = true /\
  (same_size (maskCanvas (session painted_events)) (imgCanvas (session painted_events)) /\
   same_size (resultCanvas (session painted_events)) (imgCanvas (session painted_events)) /\
   length (data (imgCanvas (session painted_events))) =
     (4 * npixels (imgCanvas (session painted_events)))%nat /\
   length (data (maskCanvas (session painted_events))) =
     (4 * npixels (imgCanvas (session painted_events)))%nat /\
   length (data (resultCanvas (session painted_events))) =
     (4 * npixels (imgCanvas (session painted_events)))%nat).
Proof.
  split; [apply session_reachable|]. split; [reflexivity|].
  apply (canvases_in_lockstep centre_sample nearest (session painted_events)
           (session_reachable painted_events)).
  reflexivity.
Defined.

Lemma path_stays_short_witness :
  reachable centre_sample nearest (session drawing_events) /\
  (path (ctxMask (session drawing_events)) = [] \/
   exists p, path (ctxMask (session drawing_events)) = [[p]]).
Proof.
  split; [apply session_reachable|].
  exact (path_stays_short centre_sample nearest (session drawing_events)
           (session_reachable drawing_events)).
Defined.

Lemma mouse_without_image_witness :
  reachable centre_sample nearest (session []) /\
  imageLoaded (state (session [])) = false /\
  forallb is_mouse [MouseDown (at_pixel 2 2); MouseMove (at_pixel 3 2); MouseUp] = true /\
  maskCanvas
    (run centre_sample nearest [MouseDown (at_pixel 2 2); MouseMove (at_pixel 3 2); MouseUp]
       (session [])) = maskCanvas (session []) /\
  ctxMask
    (run centre_sample nearest [MouseDown (at_pixel 2 2); MouseMove (at_pixel 3 2); MouseUp]
       (session [])) = ctxMask (session []).
Proof.
  split; [apply session_reachable|]. split; [reflexivity|]. split; [reflexivity|].
  destruct (mouse_without_image centre_sample nearest
              [MouseDown (at_pixel 2 2); MouseMove (at_pixel 3 2); MouseUp] (session [])
              (session_reachable []) eq_refl eq_refl) as (_ & _ & Hm & _ & Hc).
  split; [exact Hm|exact Hc].
Defined.

Lemma move_paints_segment_witness :
  isDrawing (state (session drawing_events)) = true /\
  path (ctxMask (session drawing_events)) = [[(of_Z 2, of_Z 2)]] /\
  0 < brushSize (state (session drawing_events)) /\
  is_finite (fst (to_image_space (at_pixel 3 2) (session drawing_events))) &&
  is_finite (snd (to_image_space (at_pixel 3 2) (session drawing_events))) = true /\
  (maskCanvas (draw centre_sample (at_pixel 3 2) (session drawing_events)) =
     stroke centre_sample
       {| lineWidth := brushSize (state (session drawing_events));
          lineCap := cap_round; lineJoin := join_round;
          globalCompositeOperation := tool_operation (tool (state (session drawing_events)));
          strokeStyle := tool_colour (tool (state (session drawing_events)));
          path := [[(of_Z 2, of_Z 2);
                    to_image_space (at_pixel 3 2) (session drawing_events)]] |}
       (maskCanvas (session drawing_events)) /\
   path (ctxMask (draw centre_sample (at_pixel 3 2) (session drawing_events))) =
     [[to_image_space (at_pixel 3 2) (session drawing_events)]]).
Proof.
  assert (H1 : isDrawing (state (session drawing_events)) = true) by reflexivity.
  assert (H2 : path (ctxMask (session drawing_events)) = [[(of_Z 2, of_Z 2)]])
    by (vm_compute; reflexivity).
  assert (H3 : 0 < brushSize (state (session drawing_events))) by reflexivity.
  assert (H4 : is_finite (fst (to_image_space (at_pixel 3 2) (session drawing_events))) &&
               is_finite (snd (to_image_space (at_pixel 3 2) (session drawing_events)))
               = true) by (vm_compute; reflexivity).
  split; [exact H1|]. split; [exact H2|]. split; [exact H3|]. split; [exact H4|].
  exact (move_paints_segment centre_sample (at_pixel 3 2) (session drawing_events)
           _ H1 H2 H3 H4).
Defined.

Lemma paint_off_layout_witness :
  reachable centre_sample nearest (session collapsed_events) /\
  is_finite (fst (to_image_space (at_pixel 3 2) (session collapsed_events))) &&
  is_finite (snd (to_image_space (at_pixel 3 2) (session collapsed_events))) = false /\
  (maskCanvas (paint centre_sample (at_pixel 3 2) (session collapsed_events)) =
     maskCanvas (session collapsed_events) /\
   path (ctxMask (paint centre_sample (at_pixel 3 2) (session collapsed_events))) = []).
Proof.
  assert (H : is_finite (fst (to_image_space (at_pixel 3 2) (session collapsed_events))) &&
              is_finite (snd (to_image_space (at_pixel 3 2) (session collapsed_events)))
              = false) by (vm_compute; reflexivity).
  split; [apply session_reachable|]. split; [exact H|].
  exact (paint_off_layout centre_sample nearest (at_pixel 3 2) (session collapsed_events)
           (session_reachable collapsed_events) H).
Defined.

Lemma paint_full_coverage_witness :
  (10 < npixels (maskCanvas (session drawing_events)))%nat /\
  trace_path (path (painting_context (at_pixel 3 2) (session drawing_events))) <> [] /\
  coverage centre_sample (painting_context (at_pixel 3 2) (session drawing_events))
    (maskCanvas (session drawing_events)) 10 = 255 /\
  pixel_at (data (maskCanvas (paint centre_sample (at_pixel 3 2) (session drawing_events)))) 10 =
    match tool (state (session drawing_events)) with
    | brush => {| red := 255; green := 50; blue := 50; alpha := 255 |}
    | eraser => transparent
    end.
Proof.
  assert (H1 : (10 < npixels (maskCanvas (session drawing_events)))%nat)
    by (vm_compute; lia).
  assert (H2 : trace_path (path (painting_context (at_pixel 3 2) (session drawing_events)))
               <> []) by (vm_compute; discriminate).
  assert (H3 : coverage centre_sample
                 (painting_context (at_pixel 3 2) (session drawing_events))
                 (maskCanvas (session drawing_events)) 10 = 255)
    by (vm_compute; reflexivity).
  split; [exact H1|]. split; [exact H2|]. split; [exact H3|].
  exact (paint_full_coverage centre_sample (at_pixel 3 2) (session drawing_events) 10
           H1 H2 H3).
Defined.

Lemma paint_no_coverage_witness :
  (0 < npixels (maskCanvas (session drawing_events)))%nat /\
  coverage centre_sample (painting_context (at_pixel 3 2) (session drawing_events))
    (maskCanvas (session drawing_events)) 0 = 0 /\
  pixel_at (data (maskCanvas (paint centre_sample (at_pixel 3 2) (session drawing_events)))) 0 =
    pixel_at (data (maskCanvas (session drawing_events))) 0.
Proof.
  assert (H1 : (0 < npixels (maskCanvas (session drawing_events)))%nat)
    by (vm_compute; lia).
  assert (H2 : coverage centre_sample
                 (painting_context (at_pixel 3 2) (session drawing_events))
                 (maskCanvas (session drawing_events)) 0 = 0)
    by (vm_compute; reflexivity).
  split; [exact H1|]. split; [exact H2|].
  exact (paint_no_coverage centre_sample (at_pixel 3 2) (session drawing_events) 0 H1 H2).
Defined.

Lemma clearMask_clears_witness :
  reachable centre_sample nearest (session painted_events) /\
  clearMask (session painted_events) =
    set_maskCanvas
      (blank (width (maskCanvas (session painted_events)))
         (height (maskCanvas (session painted_events))))
      (session painted_events).
Proof.
  split; [apply session_reachable|].
  exact (clearMask_clears centre_sample nearest (session painted_events)
           (session_reachable painted_events)).
Defined.

Lemma generate_with_clear_mask_witness :
  reachable centre_sample nearest (session ready_events) /\
  (forall k : nat, alpha_at (maskCanvas (session ready_events)) k = 0) /\
  runGeneration (session ready_events) =
    (fst (runGeneration (session ready_events)), Completed) /\
  data (resultCanvas (fst (runGeneration (session ready_events)))) =
    data (imgCanvas (session ready_events)).
Proof.
  assert (H1 : forall k : nat, alpha_at (maskCanvas (session ready_events)) k = 0).
  { intros k. unfold alpha_at.
    replace (maskCanvas (session ready_events)) with (blank 4 4)
      by (vm_compute; reflexivity).
    by rewrite blank_transparent. }
  assert (H2 : runGeneration (session ready_events) =
               (fst (runGeneration (session ready_events)), Completed))
    by (vm_compute; reflexivity).
  split; [apply session_reachable|]. split; [exact H1|]. split; [exact H2|].
  exact (generate_with_clear_mask centre_sample nearest _ _
           (session_reachable ready_events) H1 H2).
Defined.

Lemma generation_outcome_witness :
  reachable centre_sample nearest (session flat_events) /\
  imageLoaded (state (session flat_events)) = true /\
  promptValue (page (session flat_events)) <> ""%string /\
  snd (runGeneration (session flat_events)) =
    if (width (imgCanvas (session flat_events)) =? 0) ||
       (height (imgCanvas (session flat_events)) =? 0)
    then Failed InvalidStateError else Completed.
Proof.
  assert (H1 : imageLoaded (state (session flat_events)) = true) by reflexivity.
  assert (H2 : promptValue (page (session flat_events)) <> ""%string)
    by (vm_compute; discriminate).
  split; [apply session_reachable|]. split; [exact H1|]. split; [exact H2|].
  exact (generation_outcome centre_sample nearest (session flat_events)
           (session_reachable flat_events) H1 H2).
Defined.

Lemma regenerate_same_result_witness :
  reachable centre_sample nearest (session painted_events) /\
  runGeneration (session painted_events) =
    (fst (runGeneration (session painted_events)), Completed) /\
  exists W2,
    runGeneration (fst (runGeneration (session painted_events))) = (W2, Completed) /\
    resultCanvas W2 = resultCanvas (fst (runGeneration (session painted_events))).
Proof.
  assert (H : runGeneration (session painted_events) =
              (fst (runGeneration (session painted_events)), Completed))
    by (vm_compute; reflexivity).
  split; [apply session_reachable|]. split; [exact H|].
  exact (regenerate_same_result centre_sample nearest _ _
           (session_reachable painted_events) H).
Defined.

Lemma export_after_generation_witness :
  runGeneration (session painted_events) =
    (fst (runGeneration (session painted_events)), Completed) /\
  exportImage (fst (runGeneration (session painted_events))) =
    set_page
      (click_link
         {| download := "vivopaint-export.png";
            href := resultCanvas (fst (runGeneration (session painted_events))) |}
         (page (fst (runGeneration (session painted_events)))))
      (fst (runGeneration (session painted_events))).
Proof.
  assert (H : runGeneration (session painted_events) =
              (fst (runGeneration (session painted_events)), Completed))
    by (vm_compute; reflexivity).
  split; [exact H|].
  exact (export_after_generation (session painted_events) _ H).
Defined.

Lemma upload_width_bounded_witness :
  0 <= img_width image_wide /\
  0 <= width (imgCanvas (handleImageUpload nearest image_wide (session []))) <= maxWidth.
Proof.
  assert (H : 0 <= img_width image_wide) by (vm_compute; discriminate).
  split; [exact H|].
  exact (upload_width_bounded nearest image_wide (session []) H).
Defined.

Lemma mask_stays_hidden_witness :
  runGeneration (session painted_events) =
    (fst (runGeneration (session painted_events)), Completed) /\
  maskCanvasOpacity
    (page (run centre_sample nearest later_events
             (fst (runGeneration (session painted_events))))) = "0"%string.
Proof.
  assert (H : runGeneration (session painted_events) =
              (fst (runGeneration (session painted_events)), Completed))
    by (vm_compute; reflexivity).
  split; [exact H|].
  exact (mask_stays_hidden centre_sample nearest later_events
           (session painted_events) _ H).
Defined.

(** The mask painted after a generation is there, and cannot be seen. *)
Example hidden_stroke_example :
  let W := run centre_sample nearest later_events
             (fst (runGeneration (session painted_events))) in
  alpha_at (maskCanvas W) 5 = 255 /\ maskCanvasOpacity (page W) = "0"%string.
Proof. vm_compute. by split. Qed.

Ltac free_of_chars := unfold free_of; cbn; intuition discriminate.

Lemma dataURItoBlob_data_url_witness :
  (free_of comma "data" /\ free_of colon "data" /\
   free_of comma "image/PNG" /\ free_of colon "image/PNG" /\
   free_of semicolon "image/PNG" /\
   free_of comma "base64" /\ free_of colon "base64" /\
   free_of comma "QUJD" /\ atob_sample "QUJD" = Some "ABC"%string) /\
  dataURItoBlob atob_sample "data:image/PNG;base64,QUJD" =
    inr {| blob_bytes := code_units "ABC"; blob_type := blob_type_of "image/PNG" |}.
Proof.
  assert (H1 : free_of comma "data") by free_of_chars.
  assert (H2 : free_of colon "data") by free_of_chars.
  assert (H3 : free_of comma "image/PNG") by free_of_chars.
  assert (H4 : free_of colon "image/PNG") by free_of_chars.
  assert (H5 : free_of semicolon "image/PNG") by free_of_chars.
  assert (H6 : free_of comma "base64") by free_of_chars.
  assert (H7 : free_of colon "base64") by free_of_chars.
  assert (H8 : free_of comma "QUJD") by free_of_chars.
  assert (H9 : atob_sample "QUJD" = Some "ABC"%string) by reflexivity.
  split; [by repeat split|].
  exact (dataURItoBlob_data_url atob_sample "data" "image/PNG" "base64" "QUJD" "ABC"
           H1 H2 H3 H4 H5 H6 H7 H8 H9).
Defined.

Lemma dataURItoBlob_no_colon_witness :
  (free_of comma "image/png;base64" /\ free_of colon "image/png;base64" /\
   free_of comma "QUJD" /\ atob_sample "QUJD" = Some "ABC"%string) /\
  dataURItoBlob atob_sample "image/png;base64,QUJD" = inl TypeError.
Proof.
  assert (H1 : free_of comma "image/png;base64") by free_of_chars.
  assert (H2 : free_of colon "image/png;base64") by free_of_chars.
  assert (H3 : free_of comma "QUJD") by free_of_chars.
  assert (H4 : atob_sample "QUJD" = Some "ABC"%string) by reflexivity.
  split; [by repeat split|].
  exact (dataURItoBlob_no_colon atob_sample "image/png;base64" "QUJD" "ABC" H1 H2 H3 H4).
Defined.

Lemma dataURItoBlob_bytes_witness :
  dataURItoBlob atob_sample "data:image/png;base64,QUJD" =
    inr {| blob_bytes := [65; 66; 67]; blob_type := "image/png" |} /\
  exists bs,
    atob_sample
      (default "undefined"%string
         (split_on comma "data:image/png;base64,QUJD" !! 1%nat)) = Some bs /\
    blob_bytes {| blob_bytes := [65; 66; 67]; blob_type := "image/png" |} = code_units bs /\
    length (blob_bytes {| blob_bytes := [65; 66; 67]; blob_type := "image/png" |}) =
      String.length bs.
Proof.
  assert (H : dataURItoBlob atob_sample "data:image/png;base64,QUJD" =
              inr {| blob_bytes := [65; 66; 67]; blob_type := "image/png" |})
    by (vm_compute; reflexivity).
  split; [exact H|].
  exact (dataURItoBlob_bytes atob_sample _ _ H).
Defined.

Lemma dataURItoBlob_no_comma_witness :
  (free_of comma "data:image/png;base64" /\ atob_sample "undefined" = None) /\
  dataURItoBlob atob_sample "data:image/png;base64" = inl InvalidCharacterError.
Proof.
  assert (H1 : free_of comma "data:image/png;base64") by free_of_chars.
  assert (H2 : atob_sample "undefined" = None) by reflexivity.
  split; [by split|].
  exact (dataURItoBlob_no_comma atob_sample "data:image/png;base64" H1 H2).
Defined.
